(** * Products API: a shallow embedding of the Express service

    The development follows the four source files of the service:
    - [utils/errors.js]          the error classes and the global [errorHandler];
    - [middleware/auth.js]       [authenticate];
    - [middleware/validation.js] [validateProduct] and [validateProductUpdate];
    - [routes/products.js]       the in-memory [products] collection and the
                                 seven route handlers, in registration order.

    JavaScript values are embedded as a small inductive type, request bodies
    and stored products as finite maps from property names to values, the
    collection as a list, and [next(err)] as an explicit outcome. *)

From Stdlib Require Import ZArith QArith Qabs Qround Qpower Lia Lqa Ascii String.
From stdpp Require Import base option list strings gmap.

Local Open Scope Z_scope.
Local Open Scope string_scope.

(** ** JavaScript values *)

Module Js.

(** A JavaScript number.  [Finite q] stands for the binary64 value [q]; the
    sign of a zero is not recorded (no operation of the service observes it). *)
Inductive number : Type :=
  | NaN
  | Infinity (negative : bool)
  | Finite (q : Q).

(** The values a parsed JSON body can hold in a property, plus [undefined]
    (what reading an absent property gives).  Nested arrays and objects are
    not part of the embedding. *)
Inductive JsValue : Type :=
  | JUndefined
  | JNull
  | JBool (b : bool)
  | JNum (n : number)
  | JStr (s : string).

#[global] Instance Q_eq_dec : EqDecision Q.
Proof. solve_decision. Defined.

#[global] Instance number_eq_dec : EqDecision number.
Proof. solve_decision. Defined.

#[global] Instance JsValue_eq_dec : EqDecision JsValue.
Proof. solve_decision. Defined.

Inductive JsType : Type := TUndefined | TObject | TBoolean | TNumber | TString.

#[global] Instance JsType_eq_dec : EqDecision JsType.
Proof. solve_decision. Defined.

(** [typeof v]; [typeof null] is ["object"]. *)
Definition typeof (v : JsValue) : JsType :=
  match v with
  | JUndefined => TUndefined
  | JNull => TObject
  | JBool _ => TBoolean
  | JNum _ => TNumber
  | JStr _ => TString
  end.

Definition is_zero (q : Q) : bool := (Qnum q =? 0)%Z.

(** [n <= 0] on numbers: false as soon as an operand is [NaN]. *)
Definition le_zero (n : number) : bool :=
  match n with
  | NaN => false
  | Infinity neg => neg
  | Finite q => (Qnum q <=? 0)%Z
  end.

(** [0 < n] on numbers. *)
Definition positive_number (n : number) : bool :=
  match n with
  | NaN => false
  | Infinity neg => negb neg
  | Finite q => (0 <? Qnum q)%Z
  end.

Definition number_truthy (n : number) : bool :=
  match n with
  | NaN => false
  | Infinity _ => true
  | Finite q => negb (is_zero q)
  end.

(** ToBoolean: [undefined], [null], [false], [0], [NaN] and [""] are falsy. *)
Definition truthy (v : JsValue) : bool :=
  match v with
  | JUndefined | JNull => false
  | JBool b => b
  | JNum n => number_truthy n
  | JStr s => negb (String.eqb s "")
  end.

(** *** Strings *)

Definition is_upper (c : ascii) : bool :=
  let n := nat_of_ascii c in (65 <=? n)%nat && (n <=? 90)%nat.

Definition lower_char (c : ascii) : ascii :=
  if is_upper c then ascii_of_nat (nat_of_ascii c + 32) else c.

(** [s.toLowerCase()], on the ASCII letters. *)
Fixpoint toLowerCase (s : string) : string :=
  match s with
  | EmptyString => EmptyString
  | String c r => String (lower_char c) (toLowerCase r)
  end.

(** White space as [trim] and the numeric parsers skip it: TAB, LF, VT, FF,
    CR and SPACE. *)
Definition is_space (c : ascii) : bool :=
  let n := nat_of_ascii c in
  ((9 <=? n)%nat && (n <=? 13)%nat) || (n =? 32)%nat.

Fixpoint trimStart (s : string) : string :=
  match s with
  | EmptyString => EmptyString
  | String c r => if is_space c then trimStart r else s
  end.

(** Drops trailing white space: a character is kept when something that is
    kept follows it or when it is itself no white space. *)
Fixpoint trimEnd (s : string) : string :=
  match s with
  | EmptyString => EmptyString
  | String c r =>
      match trimEnd r with
      | EmptyString => if is_space c then EmptyString else String c EmptyString
      | r' => String c r'
      end
  end.

Definition trim (s : string) : string := trimEnd (trimStart s).

Fixpoint startsWith (s t : string) {struct t} : bool :=
  match t, s with
  | EmptyString, _ => true
  | String _ _, EmptyString => false
  | String b t', String a s' => Ascii.eqb a b && startsWith s' t'
  end.

(** [s.includes(t)]: [t] occurs in [s] as a contiguous substring. *)
Fixpoint includes (s t : string) : bool :=
  startsWith s t ||
  match s with
  | EmptyString => false
  | String _ s' => includes s' t
  end.

(** *** Numeric conversions *)

Definition pow2 (e : Z) : Q :=
  if (0 <=? e)%Z then inject_Z (2 ^ e) else 1 # Z.to_pos (2 ^ (- e)).

Definition round_half_even (q : Q) : Z :=
  let f := Qfloor q in
  match Qcompare (q - inject_Z f) (1 # 2) with
  | Lt => f
  | Gt => (f + 1)%Z
  | Eq => if Z.even f then f else (f + 1)%Z
  end.

(** For [0 < q], the [k] with [2^k <= q < 2^(k+1)]. *)
Definition binade (q : Q) : Z :=
  let k := (Z.log2 (Qnum q) - Z.log2 (Zpos (Qden q)))%Z in
  if Qle_bool (pow2 k) q then k else (k - 1)%Z.

(** Round a rational to the nearest binary64 value, ties to even: 53
    significant bits, least exponent -1074, overflow to an infinity. *)
Definition to_double (q : Q) : number :=
  if is_zero q then Finite 0
  else
    let a := Qabs q in
    let e := Z.max (binade a - 52) (-1074) in
    let m := round_half_even (a / pow2 e) in
    let r := Qred (inject_Z m * pow2 e) in
    if Qle_bool (pow2 1024) r then Infinity (Qnum q <? 0)%Z
    else Finite (if (Qnum q <? 0)%Z then - r else r).

(** [m * 10^x]. *)
Definition decimal (m x : Z) : Q :=
  if (0 <=? x)%Z then inject_Z (m * 10 ^ x) else m # Z.to_pos (10 ^ (- x)).

Definition digit_of (radix : Z) (c : ascii) : option Z :=
  let n := Z.of_nat (nat_of_ascii c) in
  let d :=
    if (48 <=? n)%Z && (n <=? 57)%Z then Some (n - 48)%Z
    else if (97 <=? n)%Z && (n <=? 122)%Z then Some (n - 87)%Z
    else if (65 <=? n)%Z && (n <=? 90)%Z then Some (n - 55)%Z
    else None in
  match d with
  | Some v => if (v <? radix)%Z then Some v else None
  | None => None
  end.

(** The longest run of [radix]-digits at the head of [s]: the value
    accumulated over [acc], how many digits were read, and what follows. *)
Fixpoint digits (radix acc : Z) (cnt : nat) (s : string) : Z * nat * string :=
  match s with
  | EmptyString => (acc, cnt, s)
  | String c r =>
      match digit_of radix c with
      | Some d => digits radix (acc * radix + d)%Z (S cnt) r
      | None => (acc, cnt, s)
      end
  end.

Definition sign (s : string) : bool * string :=
  match s with
  | String "-" r => (true, r)
  | String "+" r => (false, r)
  | _ => (false, s)
  end.

Fixpoint skip (n : nat) (s : string) : string :=
  match n, s with
  | S n', String _ r => skip n' r
  | _, _ => s
  end.

(** ExponentPart: [e] or [E], an optional sign and at least one digit;
    nothing is consumed when that is not what follows. *)
Definition exponentPart (s : string) : Z * string :=
  match s with
  | String c r =>
      if Ascii.eqb c "e" || Ascii.eqb c "E" then
        let '(neg, r1) := sign r in
        let '(v, n, r2) := digits 10 0 0 r1 in
        match n with
        | O => (0%Z, s)
        | S _ => ((if neg then - v else v)%Z, r2)
        end
      else (0%Z, s)
  | EmptyString => (0%Z, s)
  end.

Definition negate (neg : bool) (n : number) : number :=
  match n with
  | NaN => NaN
  | Infinity b => Infinity (xorb neg b)
  | Finite q => Finite (if neg then - q else q)
  end.

(** The longest prefix of [s] that is a StrDecimalLiteral, with its value
    and the rest of [s]; [None] when no prefix is one. *)
Definition strDecimalLiteral (s : string) : option (number * string) :=
  let '(neg, s1) := sign s in
  if startsWith s1 "Infinity" then Some (Infinity neg, skip 8 s1)
  else
    let '(i, ni, s2) := digits 10 0 0 s1 in
    let '(f, nf, s3) :=
      match s2 with
      | String "." r => digits 10 i 0 r
      | _ => (i, O, s2)
      end in
    match ni, nf with
    | O, O => None
    | _, _ =>
        let '(x, s4) := exponentPart s3 in
        Some (negate neg (to_double (decimal f (x - Z.of_nat nf))), s4)
    end.

(** [0x], [0o] and [0b] literals of StringToNumber: unsigned, one digit at
    least, nothing after the digits. *)
Definition nonDecimalIntegerLiteral (s : string) : option number :=
  match s with
  | String "0" (String c r) =>
      let radix :=
        if Ascii.eqb c "x" || Ascii.eqb c "X" then Some 16%Z
        else if Ascii.eqb c "o" || Ascii.eqb c "O" then Some 8%Z
        else if Ascii.eqb c "b" || Ascii.eqb c "B" then Some 2%Z
        else None in
      match radix with
      | Some b =>
          match digits b 0 0 r with
          | (v, S _, EmptyString) => Some (to_double (inject_Z v))
          | _ => Some NaN
          end
      | None => None
      end
  | _ => None
  end.

(** StringToNumber: the trimmed string is empty (0), a non-decimal integer
    literal, or a StrDecimalLiteral with nothing left over; [NaN] otherwise. *)
Definition StringToNumber (s : string) : number :=
  let t := trim s in
  match t with
  | EmptyString => Finite 0
  | _ =>
      match nonDecimalIntegerLiteral t with
      | Some n => n
      | None =>
          match strDecimalLiteral t with
          | Some (n, EmptyString) => n
          | _ => NaN
          end
      end
  end.

Definition ToNumber (v : JsValue) : number :=
  match v with
  | JUndefined => NaN
  | JNull => Finite 0
  | JBool b => Finite (if b then 1 else 0)
  | JNum n => n
  | JStr s => StringToNumber s
  end.

(** The global [isNaN(v)]: [ToNumber(v)] is [NaN]. *)
Definition isNaN (v : JsValue) : bool :=
  match ToNumber v with
  | NaN => true
  | _ => false
  end.

Definition parseFloat_string (s : string) : number :=
  match strDecimalLiteral (trimStart s) with
  | Some (n, _) => n
  | None => NaN
  end.

(** [parseFloat(v)] parses [ToString(v)].  The strings of [undefined],
    [null], [true] and [false] start with no decimal literal; the string of
    a number parses back to that number. *)
Definition parseFloat (v : JsValue) : number :=
  match v with
  | JUndefined | JNull | JBool _ => NaN
  | JNum n => n
  | JStr s => parseFloat_string s
  end.

(** [parseInt(s)] with no radix: leading white space, a sign, an optional
    [0x] prefix, then the longest run of digits, [NaN] when there is none.
    The integer read is rounded to binary64, so a long run of digits loses
    its low digits and a longer one yet is an infinity. *)
Definition parseInt (s : string) : number :=
  let '(neg, s1) := sign (trimStart s) in
  let '(radix, s2) :=
    if startsWith s1 "0x" || startsWith s1 "0X" then (16%Z, skip 2 s1)
    else (10%Z, s1) in
  match digits radix 0 0 s2 with
  | (_, O, _) => NaN
  | (v, S _, _) => negate neg (to_double (inject_Z v))
  end.

(** *** Arithmetic on numbers

    The operations of binary64: the exact result, rounded.  A zero does not
    record its sign, so a division by zero takes the zero as positive. *)

(** An integer as a number; exact between [-2^53] and [2^53]. *)
Definition of_Z (z : Z) : number := Finite (inject_Z z).

Definition negative (q : Q) : bool := (Qnum q <? 0)%Z.

(** [a + b] *)
Definition num_add (a b : number) : number :=
  match a, b with
  | NaN, _ | _, NaN => NaN
  | Infinity s, Infinity t => if Bool.eqb s t then Infinity s else NaN
  | Infinity s, Finite _ => Infinity s
  | Finite _, Infinity t => Infinity t
  | Finite p, Finite q => to_double (p + q)
  end.

(** [a - b] *)
Definition num_sub (a b : number) : number := num_add a (negate true b).

(** [a * b] *)
Definition num_mul (a b : number) : number :=
  match a, b with
  | NaN, _ | _, NaN => NaN
  | Infinity s, Infinity t => Infinity (xorb s t)
  | Infinity s, Finite q => if is_zero q then NaN else Infinity (xorb s (negative q))
  | Finite p, Infinity t => if is_zero p then NaN else Infinity (xorb (negative p) t)
  | Finite p, Finite q => to_double (p * q)
  end.

(** [a / b] *)
Definition num_div (a b : number) : number :=
  match a, b with
  | NaN, _ | _, NaN => NaN
  | Infinity _, Infinity _ => NaN
  | Infinity s, Finite q => Infinity (xorb s (negative q))
  | Finite _, Infinity _ => Finite 0
  | Finite p, Finite q =>
      if is_zero q then (if is_zero p then NaN else Infinity (negative p))
      else to_double (p / q)
  end.


(** [Math.ceil(n)] *)
Definition Math_ceil (n : number) : number :=
  match n with
  | Finite q => Finite (inject_Z (Qceiling q))
  | _ => n
  end.

(** ToIntegerOrInfinity: [NaN] is 0, a finite number loses its fraction, an
    infinity stays. *)
Inductive IntegerOrInfinity : Type :=
  | MinusInfinity
  | Integer (z : Z)
  | PlusInfinity.

Definition ToIntegerOrInfinity (n : number) : IntegerOrInfinity :=
  match n with
  | NaN => Integer 0
  | Infinity true => MinusInfinity
  | Infinity false => PlusInfinity
  | Finite q => Integer (if negative q then Qceiling q else Qfloor q)
  end.

End Js.

Import Js.

(** A JavaScript object with primitive properties: request bodies and the
    stored products.  Reading an absent property gives [undefined]. *)
Abbreviation JsObject := (gmap string JsValue).
Abbreviation Product := (gmap string JsValue).

Definition get (o : JsObject) (k : string) : JsValue := default JUndefined (o !! k).

(** [v === s] for a string [s]: same type and same characters. *)
Definition strict_eq_string (v : JsValue) (s : string) : bool :=
  match v with
  | JStr t => String.eqb t s
  | _ => false
  end.

(** [v === b] for a boolean [b]. *)
Definition strict_eq_bool (v : JsValue) (b : bool) : bool :=
  match v with
  | JBool c => Bool.eqb c b
  | _ => false
  end.

(** ** utils/errors.js *)

(** An error object as the service creates or meets them: [new Error(message)]
    with [statusCode] and [details] attached afterwards, or an error of the
    runtime ([TypeError], [ReferenceError]), which has neither. *)
Record JsError : Type := mkError {
  name : string;
  message : string;
  statusCode : option Z;
  details : option (list string)
}.

Definition Error (msg : string) : JsError :=
  {| name := "Error"; message := msg; statusCode := None; details := None |}.

Definition with_statusCode (e : JsError) (c : Z) : JsError :=
  {| name := name e; message := message e; statusCode := Some c; details := details e |}.

Definition with_details (e : JsError) (d : list string) : JsError :=
  {| name := name e; message := message e; statusCode := statusCode e; details := Some d |}.

Definition TypeError (msg : string) : JsError :=
  {| name := "TypeError"; message := msg; statusCode := None; details := None |}.

Definition ReferenceError (msg : string) : JsError :=
  {| name := "ReferenceError"; message := msg; statusCode := None; details := None |}.

(** The JSON bodies the service sends. *)
Inductive Body : Type :=
  | BList (total : Z) (page limit totalPages : number) (data : list Product)
  | BProduct (product : Product)
  | BMessageProduct (msg : string) (product : Product)
  | BSearch (query : string) (total : nat) (results : list Product)
  | BStats (totalProducts inStock outOfStock : nat)
  | BError (error : string) (details : option (list string))
  | BErrorMessage (error msg : string).

Record Response : Type := mkResponse { status : Z; body : Body }.

(** What a computation inside a [try] block comes to. *)
Inductive Completion (A : Type) : Type :=
  | Normal (a : A)
  | Throw (e : JsError).
Arguments Normal {A} a.
Arguments Throw {A} e.

#[global] Instance Completion_bind : MBind Completion := fun A B k c =>
  match c with
  | Normal a => k a
  | Throw e => Throw e
  end.

(** What a route comes to: a response was sent, or [next(err)] was called. *)
Inductive Outcome : Type :=
  | Sent (r : Response)
  | Next (e : JsError).

(** [errorHandler].  [None] stands for the handler itself throwing: an error
    named [ValidationError] sends it to [Object.values(err.errors)], and no
    error object of the service has an [errors] property.  The errors
    embedded here are no instances of the three custom classes and carry no
    [code], so those branches leave [error] as it is.  [error] starts with a
    message and a status code only, and no branch taken gives it [details]:
    those of [err] are not copied.  The [stack] property of the development
    configuration is not represented. *)
Definition errorHandler (err : JsError) : option Response :=
  let message0 := if String.eqb (message err) "" then "Internal Server Error" else message err in
  let statusCode0 :=
    match statusCode err with
    | Some c => if (c =? 0)%Z then 500%Z else c
    | None => 500%Z
    end in
  if String.eqb (name err) "ValidationError" then None
  else
    let '(message1, statusCode1) :=
      if String.eqb (name err) "CastError" then ("Resource not found", 404%Z)
      else (message0, statusCode0) in
    Some {| status := statusCode1; body := BError message1 None |}.

(** The three error classes of the file.  Each constructor takes its
    message, or [None] where the caller passes none and the default
    parameter applies, and sets the name and the status code. *)
Inductive ErrorClass : Type :=
  | NotFoundErrorClass
  | ValidationErrorClass
  | AuthenticationErrorClass.

Definition NotFoundError (msg : option string) : JsError :=
  {| name := "NotFoundError"; message := default "Resource not found" msg;
     statusCode := Some 404; details := None |}.

Definition ValidationError (msg : option string) (d : option (list string)) : JsError :=
  {| name := "ValidationError"; message := default "Validation failed" msg;
     statusCode := Some 400; details := Some (default [] d) |}.

Definition AuthenticationError (msg : option string) : JsError :=
  {| name := "AuthenticationError"; message := default "Authentication failed" msg;
     statusCode := Some 401; details := None |}.

(** [errorHandler] on an instance of class [c]: after the branches on the
    name, the branch of the class copies message and status code of [err],
    and for [ValidationError] its details.  [None] stands for the handler
    throwing, as in [errorHandler]; sending a response with no status code,
    or with one outside 100..999, throws too. *)
Definition errorHandler_instance (c : ErrorClass) (err : JsError) : option Response :=
  if String.eqb (name err) "ValidationError" then None
  else
    match statusCode err with
    | None => None
    | Some code =>
        if (100 <=? code)%Z && (code <=? 999)%Z then
          Some {| status := code;
                  body := BError (message err)
                            match c with
                            | ValidationErrorClass => details err
                            | _ => None
                            end |}
        else None
    end.

(** ** middleware/auth.js *)

(** The part of [process.env] the service reads. *)
Record Env : Type := mkEnv { API_KEY : option string }.

(** A query parameter as the query parser leaves it: a string, an array for
    a repeated or bracketed parameter ([?a=1&a=2], [?a[]=1]), an object for
    a keyed one ([?a[b]=1]). *)
#[warnings="-register-all"]
Inductive QueryValue : Type :=
  | QString (s : string)
  | QArray (items : list QueryValue)
  | QObject (fields : list (string * QueryValue)).

(** [String(v)]: the items of an array joined by commas; [[object Object]]
    for an object. *)
Fixpoint query_ToString (v : QueryValue) : string :=
  match v with
  | QString s => s
  | QArray items =>
      (fix join (l : list QueryValue) : string :=
         match l with
         | [] => ""
         | [x] => query_ToString x
         | x :: r => query_ToString x ++ "," ++ join r
         end) items
  | QObject _ => "[object Object]"
  end.


(** What the service reads of a request: the method, the path below the
    mount point split at ['/'], the URL as received, the query parameters,
    the [x-api-key] header and the parsed JSON body. *)
Record Request : Type := mkRequest {
  method : string;
  path : list string;
  originalUrl : string;
  query : gmap string QueryValue;
  x_api_key : option string;
  req_body : JsObject
}.

(** [process.env.API_KEY || 'secret-key-123']. *)
Definition validApiKey (env : Env) : string :=
  match API_KEY env with
  | Some k => if String.eqb k "" then "secret-key-123" else k
  | None => "secret-key-123"
  end.

(** A middleware either calls [next()], here [None], or [next(error)]. *)
Definition authenticate (env : Env) (req : Request) : option JsError :=
  match x_api_key req with
  | None => Some (with_statusCode (Error "API key is required") 401)
  | Some apiKey =>
      if String.eqb apiKey "" then Some (with_statusCode (Error "API key is required") 401)
      else if negb (String.eqb apiKey (validApiKey env)) then
        Some (with_statusCode (Error "Invalid API key") 401)
      else None
  end.

(** ** middleware/validation.js *)

Definition is_string (v : JsValue) : bool :=
  match v with
  | JStr _ => true
  | _ => false
  end.

(** [typeof v !== 'string' || v.trim().length === 0] *)
Definition not_nonempty_string (v : JsValue) : bool :=
  match v with
  | JStr s => (String.length (trim s) =? 0)%nat
  | _ => true
  end.

Definition is_undefined (v : JsValue) : bool :=
  match v with
  | JUndefined => true
  | _ => false
  end.

(** [errors.push(msg)] under [if (cond)]. *)
Definition push_if (cond : bool) (msg : string) (errors : list string) : list string :=
  if cond then errors ++ [msg] else errors.

Definition validation_result (errors : list string) : option JsError :=
  if (0 <? length errors)%nat then
    Some (with_details (with_statusCode (Error "Validation failed") 400) errors)
  else None.

Definition validateProduct_errors (b : JsObject) : list string :=
  let name := get b "name" in
  let description := get b "description" in
  let price := get b "price" in
  let category := get b "category" in
  let errors := [] in
  let errors :=
    push_if (negb (truthy name) || not_nonempty_string name)
      "Name is required and must be a non-empty string" errors in
  let errors :=
    push_if (negb (truthy description) || not_nonempty_string description)
      "Description is required and must be a non-empty string" errors in
  let errors :=
    push_if (negb (truthy price) || isNaN price || le_zero (parseFloat price))
      "Price is required and must be a positive number" errors in
  let errors :=
    push_if (negb (truthy category) || not_nonempty_string category)
      "Category is required and must be a non-empty string" errors in
  errors.

Definition validateProduct (req : Request) : option JsError :=
  validation_result (validateProduct_errors (req_body req)).

Definition validateProductUpdate_errors (b : JsObject) : list string :=
  let name := get b "name" in
  let description := get b "description" in
  let price := get b "price" in
  let category := get b "category" in
  let inStock := get b "inStock" in
  let errors := [] in
  let errors :=
    push_if (truthy name && not_nonempty_string name)
      "Name must be a non-empty string" errors in
  let errors :=
    push_if (truthy description && not_nonempty_string description)
      "Description must be a non-empty string" errors in
  let errors :=
    push_if (truthy price && (isNaN price || le_zero (parseFloat price)))
      "Price must be a positive number" errors in
  let errors :=
    push_if (truthy category && not_nonempty_string category)
      "Category must be a non-empty string" errors in
  let errors :=
    push_if (negb (is_undefined inStock) && bool_decide (typeof inStock <> TBoolean))
      "inStock must be a boolean" errors in
  errors.

Definition validateProductUpdate (req : Request) : option JsError :=
  validation_result (validateProductUpdate_errors (req_body req)).

(** ** routes/products.js *)

(** [uuidv4()] comes from the [uuid] package.  A handler that calls it takes
    the string it returned as an argument; what the package promises of that
    string is its format, checked by [is_uuid], and that no two calls return
    the same one. *)
Definition is_hex (c : ascii) : bool :=
  let n := nat_of_ascii c in
  ((48 <=? n)%nat && (n <=? 57)%nat) || ((97 <=? n)%nat && (n <=? 102)%nat).

Definition uuid_char_ok (i : nat) (c : ascii) : bool :=
  if (i =? 8)%nat || (i =? 13)%nat || (i =? 18)%nat || (i =? 23)%nat then Ascii.eqb c "-"
  else if (i =? 14)%nat then Ascii.eqb c "4"
  else if (i =? 19)%nat then
    Ascii.eqb c "8" || Ascii.eqb c "9" || Ascii.eqb c "a" || Ascii.eqb c "b"
  else is_hex c.

Fixpoint uuid_from (i : nat) (s : string) : bool :=
  match s with
  | EmptyString => (i =? 36)%nat
  | String c r => uuid_char_ok i c && uuid_from (S i) r
  end.

Definition is_uuid (s : string) : bool := uuid_from 0 s.

Definition mkProduct (id name description : string) (price : Q) (category : string)
    (inStock : bool) : Product :=
  <["id" := JStr id]> (<["name" := JStr name]> (<["description" := JStr description]>
  (<["price" := JNum (to_double price)]> (<["category" := JStr category]>
  (<["inStock" := JBool inStock]> ∅))))).

(** The in-memory storage as the module leaves it when it is loaded. *)
Definition products : list Product :=
  [ mkProduct "1" "Laptop" "High-performance gaming laptop" (129999 # 100) "Electronics" true;
    mkProduct "2" "Coffee Mug" "Ceramic coffee mug with handle" (1299 # 100) "Kitchen" true;
    mkProduct "3" "Desk Lamp" "LED desk lamp with adjustable brightness" (3499 # 100) "Home" false ].

(** [v.toLowerCase()] on a property value: a [TypeError] unless [v] is a
    string ([expr] is the source text of [v], for the message). *)
Definition call_toLowerCase (expr : string) (v : JsValue) : Completion string :=
  match v with
  | JStr s => Normal (toLowerCase s)
  | JUndefined => Throw (TypeError "Cannot read properties of undefined (reading 'toLowerCase')")
  | JNull => Throw (TypeError "Cannot read properties of null (reading 'toLowerCase')")
  | _ => Throw (TypeError (expr ++ ".toLowerCase is not a function"))
  end.

(** [l.filter(f)] for a callback that may throw: elements are visited in
    order and the first exception ends the call. *)
Fixpoint filterC {A : Type} (f : A -> Completion bool) (l : list A) : Completion (list A) :=
  match l with
  | [] => Normal []
  | x :: r =>
      b ← f x;
      r' ← filterC f r;
      Normal (if b : bool then x :: r' else r')
  end.

(** [l.findIndex(f)]; [None] is the [-1] of JavaScript. *)
Fixpoint findIndex {A : Type} (f : A -> bool) (l : list A) : option nat :=
  match l with
  | [] => None
  | x :: r => if f x then Some O else S <$> findIndex f r
  end.

(** An index of [slice] relative to a list of [n] elements: a negative one
    counts from the end, and all are clamped to the list. *)
Definition relative_index (n : Z) (i : IntegerOrInfinity) : Z :=
  match i with
  | MinusInfinity => 0
  | Integer z => if (z <? 0)%Z then Z.max (n + z) 0 else Z.min z n
  | PlusInfinity => n
  end.

(** [l.slice(s, e)] *)
Definition slice {A : Type} (l : list A) (s e : number) : list A :=
  let n := Z.of_nat (length l) in
  let k := relative_index n (ToIntegerOrInfinity s) in
  let f := relative_index n (ToIntegerOrInfinity e) in
  take (Z.to_nat (f - k)) (drop (Z.to_nat k) l).

(** A query parameter used as a condition: absent and the empty string are
    falsy, arrays and objects are truthy. *)
Definition param_truthy (o : option QueryValue) : bool :=
  match o with
  | Some (QString s) => negb (String.eqb s "")
  | Some _ => true
  | None => false
  end.

(** [p === 'true'] *)
Definition param_is_true (o : option QueryValue) : bool :=
  match o with
  | Some (QString s) => String.eqb s "true"
  | _ => false
  end.

(** [parseInt(p) || d]: [parseInt] reads the string of its argument, that
    of [undefined] holds no digits, and [0] and [NaN] are falsy. *)
Definition parseInt_or (o : option QueryValue) (d : Z) : number :=
  let n :=
    match o with
    | Some v => parseInt (query_ToString v)
    | None => NaN
    end in
  if number_truthy n then n else of_Z d.

(** [v.toLowerCase()] on a query parameter: a [TypeError] unless [v] is a
    string. *)
Definition param_toLowerCase (expr : string) (v : QueryValue) : Completion string :=
  match v with
  | QString s => Normal (toLowerCase s)
  | _ => Throw (TypeError (expr ++ ".toLowerCase is not a function"))
  end.

(** The callback of the category filter: the left operand of [===] is
    evaluated first. *)
Definition category_matches (category : QueryValue) (product : Product) : Completion bool :=
  lc ← call_toLowerCase "product.category" (get product "category");
  qc ← param_toLowerCase "req.query.category" category;
  Normal (String.eqb lc qc).

(** GET /.  The handler is declared without [next], so the [next(error)] of
    its [catch] block is itself a [ReferenceError], which the framework
    hands to the error handler. *)
Definition list_products (req : Request) (ps : list Product) : Outcome :=
  let attempt : Completion Response :=
    filteredProducts ←
      (if param_truthy (query req !! "category")
       then filterC (category_matches (default (QString "") (query req !! "category"))) ps
       else Normal ps);
    let filteredProducts :=
      if param_truthy (query req !! "inStock") then
        let inStock := param_is_true (query req !! "inStock") in
        List.filter (fun product : Product => strict_eq_bool (get product "inStock") inStock)
          filteredProducts
      else filteredProducts in
    let page := parseInt_or (query req !! "page") 1 in
    let limit := parseInt_or (query req !! "limit") 10 in
    let startIndex := num_mul (num_sub page (of_Z 1)) limit in
    let endIndex := num_add startIndex limit in
    Normal {| status := 200;
              body := BList (Z.of_nat (length filteredProducts)) page limit
                        (Math_ceil (num_div (of_Z (Z.of_nat (length filteredProducts))) limit))
                        (slice filteredProducts startIndex endIndex) |} in
  match attempt with
  | Normal r => Sent r
  | Throw _ => Next (ReferenceError "next is not defined")
  end.

Definition not_found : JsError := with_statusCode (Error "Product not found") 404.

(** GET /:id *)
Definition get_product (id : string) (ps : list Product) : Outcome :=
  match List.find (fun p : Product => strict_eq_string (get p "id") id) ps with
  | Some product => Sent {| status := 200; body := BProduct product |}
  | None => Next not_found
  end.

(** POST /, after [authenticate] and [validateProduct]. *)
Definition create_product (uuid : string) (req : Request) (ps : list Product)
    : Outcome * list Product :=
  let b := req_body req in
  let newProduct : Product :=
    <["id" := JStr uuid]> (<["name" := get b "name"]>
    (<["description" := get b "description"]>
    (<["price" := JNum (parseFloat (get b "price"))]>
    (<["category" := get b "category"]>
    (<["inStock" := JBool (truthy (get b "inStock"))]> ∅))))) in
  (Sent {| status := 201; body := BMessageProduct "Product created successfully" newProduct |},
   (ps ++ [newProduct])%list).

(** [{...old, ...patch, id}] *)
Definition merge (old patch : JsObject) (id : string) : Product :=
  <["id" := JStr id]> (patch ∪ old).

(** PUT /:id, after [authenticate] and [validateProductUpdate]. *)
Definition update_product (id : string) (req : Request) (ps : list Product)
    : Outcome * list Product :=
  match findIndex (fun p : Product => strict_eq_string (get p "id") id) ps with
  | None => (Next not_found, ps)
  | Some productIndex =>
      let updated := merge (default ∅ (ps !! productIndex)) (req_body req) id in
      (Sent {| status := 200; body := BMessageProduct "Product updated successfully" updated |},
       <[productIndex := updated]> ps)
  end.

(** DELETE /:id, after [authenticate]. *)
Definition delete_product (id : string) (ps : list Product) : Outcome * list Product :=
  match findIndex (fun p : Product => strict_eq_string (get p "id") id) ps with
  | None => (Next not_found, ps)
  | Some productIndex =>
      let deletedProduct := default ∅ (ps !! productIndex) in
      (Sent {| status := 200;
               body := BMessageProduct "Product deleted successfully" deletedProduct |},
       delete productIndex ps)
  end.

Definition dquote : string := String (ascii_of_nat 34) EmptyString.

(** The callback of the search filter; [||] does not evaluate the
    description when the name matches. *)
Definition search_matches (query : string) (product : Product) : Completion bool :=
  n ← call_toLowerCase "product.name" (get product "name");
  if includes n query then Normal true
  else d ← call_toLowerCase "product.description" (get product "description");
       Normal (includes d query).

(** [p?.toLowerCase()]: [undefined] for an absent parameter, a [TypeError]
    for an array or an object. *)
Definition optional_toLowerCase (expr : string) (o : option QueryValue)
    : Completion (option string) :=
  match o with
  | None => Normal None
  | Some v => s ← param_toLowerCase expr v; Normal (Some s)
  end.

(** [!!s] for a string or [undefined]. *)
Definition string_truthy (o : option string) : bool :=
  match o with
  | Some s => negb (String.eqb s "")
  | None => false
  end.

(** GET /search *)
Definition search_products (req : Request) (ps : list Product) : Outcome :=
  match optional_toLowerCase "req.query.q?" (query req !! "q") with
  | Throw error => Next error
  | Normal query =>
      if negb (string_truthy query) then
        Sent {| status := 400;
                body := BErrorMessage "Search query is required"
                          ("Please provide a search query using the " ++ dquote ++ "q"
                             ++ dquote ++ " parameter") |}
      else
        let query := default "" query in
        match filterC (search_matches query) ps with
        | Normal searchResults =>
            Sent {| status := 200;
                    body := BSearch query (length searchResults) searchResults |}
        | Throw error => Next error
        end
  end.

(** GET /stats: the three counters of the answer.  Its [categories] table
    and its [priceStats] rest on number formatting and floating-point sums
    and are left out of the embedding of the answer. *)
Definition stats_products (ps : list Product) : Outcome :=
  Sent {| status := 200;
          body := BStats (length ps)
                    (length (List.filter (fun p : Product => truthy (get p "inStock")) ps))
                    (length (List.filter (fun p : Product => negb (truthy (get p "inStock"))) ps)) |}.

(** *** The router and the application *)

(** Modelled from the spec: [middleware/logger.js] is not among the sources.
    The spec has the request logger record method, path and time of each
    inbound call as a side effect only, so it hands every request on. *)
Definition logger (req : Request) : option JsError := None.

(** The seven routes, named by what they serve. *)
Inductive Route : Type :=
  | ListRoute
  | GetRoute
  | CreateRoute
  | UpdateRoute
  | DeleteRoute
  | SearchRoute
  | StatsRoute.

#[global] Instance Route_eq_dec : EqDecision Route.
Proof. solve_decision. Defined.

(** The three shapes of route path in the file: ['/'], ['/:id'] and a
    literal segment. *)
Inductive RoutePath : Type :=
  | Root
  | IdParam
  | Literal (segment : string).

Definition route_method (r : Route) : string :=
  match r with
  | ListRoute | GetRoute | SearchRoute | StatsRoute => "GET"
  | CreateRoute => "POST"
  | UpdateRoute => "PUT"
  | DeleteRoute => "DELETE"
  end.

Definition route_path (r : Route) : RoutePath :=
  match r with
  | ListRoute | CreateRoute => Root
  | GetRoute | UpdateRoute | DeleteRoute => IdParam
  | SearchRoute => Literal "search"
  | StatsRoute => Literal "stats"
  end.

(** The routes in the order in which the file registers them. *)
Definition stack : list Route :=
  [ListRoute; GetRoute; CreateRoute; UpdateRoute; DeleteRoute; SearchRoute; StatsRoute].

(** A parameter takes any non-empty segment; a literal is compared without
    regard to case. *)
Definition path_matches (pat : RoutePath) (p : list string) : bool :=
  match pat, p with
  | Root, [] => true
  | IdParam, [s] => negb (String.eqb s "")
  | Literal l, [s] => String.eqb (toLowerCase s) l
  | _, _ => false
  end.

(** A [GET] route also serves [HEAD]. *)
Definition method_matches (m req_method : string) : bool :=
  String.eqb m req_method || (String.eqb m "GET" && String.eqb req_method "HEAD").

Definition route_matches (req : Request) (r : Route) : bool :=
  method_matches (route_method r) (method req) && path_matches (route_path r) (path req).

(** The first registered route that matches handles the request; no handler
    of the file calls [next()] without an error, so a request never goes on
    to a later route. *)
Definition dispatch (req : Request) : option Route :=
  List.find (route_matches req) stack.

(** [req.params.id] on a route with path ['/:id']. *)
Definition params_id (req : Request) : string := hd "" (path req).

(** Middlewares run in order; the first [next(error)] skips what follows. *)
Fixpoint chain (ms : list (Request -> option JsError)) (req : Request)
    (handler : list Product -> Outcome * list Product) (ps : list Product)
    : Outcome * list Product :=
  match ms with
  | [] => handler ps
  | m :: ms' =>
      match m req with
      | Some e => (Next e, ps)
      | None => chain ms' req handler ps
      end
  end.

Definition run_route (env : Env) (uuid : string) (r : Route) (req : Request)
    (ps : list Product) : Outcome * list Product :=
  match r with
  | ListRoute => (list_products req ps, ps)
  | GetRoute => (get_product (params_id req) ps, ps)
  | CreateRoute => chain [authenticate env; validateProduct] req (create_product uuid req) ps
  | UpdateRoute =>
      chain [authenticate env; validateProductUpdate] req (update_product (params_id req) req) ps
  | DeleteRoute => chain [authenticate env] req (delete_product (params_id req)) ps
  | SearchRoute => (search_products req ps, ps)
  | StatsRoute => (stats_products ps, ps)
  end.

(** The router: [logger] first, then the matching route; [None] when no
    route matches and the request falls through to the application. *)
Definition router (env : Env) (uuid : string) (req : Request) (ps : list Product)
    : option (Outcome * list Product) :=
  match logger req with
  | Some e => Some (Next e, ps)
  | None => (fun r => run_route env uuid r req ps) <$> dispatch req
  end.

(** An error goes to [errorHandler]; should that throw, the framework
    answers with status 500 itself. *)
Definition respond (o : Outcome) : Response :=
  match o with
  | Sent r => r
  | Next e =>
      default {| status := 500; body := BError "Internal Server Error" None |}
        (errorHandler e)
  end.

(** The application below its mount point: the router, then the catch-all
    404 handler, then [errorHandler]. *)
Definition app (env : Env) (uuid : string) (req : Request) (ps : list Product)
    : Response * list Product :=
  match router env uuid req ps with
  | Some (o, ps') => (respond o, ps')
  | None =>
      ({| status := 404;
          body := BErrorMessage "Route not found"
                    ("The route " ++ originalUrl req ++ " does not exist") |}, ps)
  end.

(** The collections the running service can hold: it starts from [products]
    and serves one request after the other.  [issued] lists the strings
    [uuidv4()] has returned so far (a string is drawn for every request and
    used by the create route only); a new one has the UUID format and was
    not returned before. *)
Inductive reachable (env : Env) : list string -> list Product -> Prop :=
  | reachable_init : reachable env [] products
  | reachable_step issued ps uuid req :
      reachable env issued ps ->
      is_uuid uuid = true ->
      uuid ∉ issued ->
      reachable env (uuid :: issued) (app env uuid req ps).2.

(** The identifiers of the collection, in order. *)
Definition ids (ps : list Product) : list JsValue := (fun p : Product => get p "id") <$> ps.

(** [strings_at ks p]: the properties [ks] of [p] hold strings, as the data
    model has it for name, description and category. *)
Definition strings_at (ks : list string) (p : Product) : bool :=
  forallb (fun k => is_string (get p k)) ks.

(** *** The constraints in the words of the specification *)

(** A non-empty string after trimming white space. *)
Definition nonempty_text (v : JsValue) : bool :=
  match v with
  | JStr s => negb (String.eqb (trim s) "")
  | _ => false
  end.

(** The test [validateProduct] puts a price to, read positively. *)
Definition create_price_ok (v : JsValue) : bool :=
  truthy v && negb (isNaN v) && negb (le_zero (parseFloat v)).

(** The message of a field, unless the field is in order. *)
Definition message_unless (ok : bool) (msg : string) : list string :=
  if ok then [] else [msg].

(** The error object both validators and [authenticate] build:
    [new Error(msg)] with a status code and, for the validators, details. *)
Definition http_error (msg : string) (code : Z) (d : option (list string)) : JsError :=
  {| name := "Error"; message := msg; statusCode := Some code; details := d |}.

(** [v] is a string that contains [q], letter case set aside. *)
Definition ci_includes (v : JsValue) (q : string) : bool :=
  match v with
  | JStr s => includes (toLowerCase s) (toLowerCase q)
  | _ => false
  end.

(** The name or the description of [p] contains [q], letter case set aside. *)
Definition search_hit (q : string) (p : Product) : bool :=
  ci_includes (get p "name") q || ci_includes (get p "description") q.





(** The identifiers of the products the service starts with. *)
Definition seed_ids : list string := ["1"; "2"; "3"].

(** What holds of every collection the service can reach: the strings
    [uuidv4()] returned have the UUID format, every product bears a string as
    identifier, one of the seed or one [uuidv4()] returned, and no identifier
    occurs twice. *)
Definition store_inv (issued : list string) (ps : list Product) : Prop :=
  Forall (fun u => is_uuid u = true) issued /\
  Forall (fun v => exists s, v = JStr s /\ (s ∈ seed_ids \/ s ∈ issued)) (ids ps) /\
  NoDup (ids ps).

(** The search callback throws on [p]: the name is no string, or the name
    does not contain [q] and the description is no string. *)
Definition search_throws (q : string) (p : Product) : bool :=
  negb (is_string (get p "name")) ||
  (negb (ci_includes (get p "name") q) && negb (is_string (get p "description"))).

(** A product as the data model has it, as far as the queries read it:
    name, description and category are strings. *)
Definition typed (p : Product) : bool := strings_at ["name"; "description"; "category"] p.

(** The routes that change the collection. *)
Definition write_route (r : Route) : bool :=
  match r with
  | CreateRoute | UpdateRoute | DeleteRoute => true
  | _ => false
  end.





(** *** Integers as numbers

    The integers between [-2^53] and [2^53] are numbers; one further out is
    rounded, to a number that is as far out, or to an infinity. *)





(** *** Sample requests *)

Definition request (m : string) (p : list string) (q : gmap string QueryValue)
    (key : option string) (b : JsObject) : Request :=
  {| method := m; path := p; originalUrl := "/api/products"; query := q;
     x_api_key := key; req_body := b |}.

Definition keyless_request : Request := request "POST" [] ∅ None ∅.


Definition mug_search : Request := request "GET" ["search"] {["q" := QString "MUG"]} None ∅.

Definition kitchen_list : Request := request "GET" [] {["category" := QString "kitchen"]} None ∅.



Definition get_search : Request := request "GET" ["search"] {["q" := QString "mug"]} None ∅.

Definition sample_uuid : string := "9b1deb4d-3b7d-4bad-9bdd-2b0d7b3dcb6d".

Definition mug_body : JsObject :=
  {["name" := JStr "Tea Mug"; "description" := JStr "Stoneware mug";
    "price" := JNum (Finite 9); "category" := JStr "Kitchen"]}.

Definition mug_create : Request := request "POST" [] ∅ (Some "secret-key-123") mug_body.

Definition keyless_delete : Request := request "DELETE" ["1"] ∅ None ∅.

Definition negative_price_update : Request :=
  request "PUT" ["999"] ∅ (Some "secret-key-123") {["price" := JNum (Finite (-5))]}.

Definition get_sample : Request := request "GET" [sample_uuid] ∅ None ∅.

Definition get_first : Request := request "GET" ["1"] ∅ None ∅.

Definition post_with_id : Request := request "POST" ["1"] ∅ (Some "secret-key-123") mug_body.

Definition price_update : Request :=
  request "PUT" ["2"] ∅ (Some "secret-key-123") {["price" := JNum (Finite 15)]}.

Definition delete_second : Request := request "DELETE" ["2"] ∅ (Some "secret-key-123") ∅.

Definition put_root : Request := request "PUT" [] ∅ (Some "secret-key-123") mug_body.

Definition upper_search : Request := request "GET" ["search"] {["q" := QString "Mug"]} None ∅.


Definition head_first : Request := request "HEAD" ["1"] ∅ None ∅.

Definition plain_list : Request := request "GET" [] ∅ None ∅.

Definition zero_price_patch : JsObject := {["price" := JNum (Finite 0)]}.

Definition zero_price_update : Request :=
  request "PUT" ["1"] ∅ (Some "secret-key-123") zero_price_patch.

Definition empty_name_patch : JsObject := {["name" := JStr ""]}.

Definition null_category_update : Request :=
  request "PUT" ["1"] ∅ (Some "secret-key-123") {["category" := JNull]}.

Definition renumbering_patch : JsObject :=
  {["id" := JStr "999"; "price" := JNum (Finite 5)]}.

Definition renumbering_update : Request :=
  request "PUT" ["1"] ∅ (Some "secret-key-123") renumbering_patch.







Fixpoint zeros (n : nat) : string :=
  match n with
  | O => ""
  | S n' => String "0" (zeros n')
  end.

(** A limit of 401 digits. *)
Definition huge_limit : Request :=
  request "GET" [] {["limit" := QString (String "1" (zeros 400))]} None ∅.


Definition boolean_price_body : JsObject :=
  {["name" := JStr "Tea Mug"; "description" := JStr "Stoneware mug";
    "price" := JBool true; "category" := JStr "Kitchen"]}.

Definition boolean_price_create : Request :=
  request "POST" [] ∅ (Some "secret-key-123") boolean_price_body.

Definition blank_price_body : JsObject :=
  {["name" := JStr "Tea Mug"; "description" := JStr "Stoneware mug";
    "price" := JStr "   "; "category" := JStr "Kitchen"]}.

(** ** Strings: what [toLowerCase], [startsWith] and [includes] compute *)

Lemma toLowerCase_empty (s : string) : toLowerCase s = "" <-> s = "".
Proof. destruct s; simpl; split; intros H; (reflexivity || discriminate). Qed.



(** ** middleware/auth.js: [authenticate] *)

Lemma validApiKey_nonempty (env : Env) : validApiKey env <> "".
Proof.
  unfold validApiKey. destruct (API_KEY env) as [k|]; [|discriminate].
  destruct (String.eqb_spec k ""); [discriminate | assumption].
Qed.

(** C9. [authenticate] calls [next] with a 401 error saying "API key is
    required" when the request carries no key (no header, or an empty one),
    with a 401 error saying "Invalid API key" when the key differs from the
    configured secret, and with nothing when it equals the secret.  The error
    handler answers the two errors with status 401 and their message; the
    middleware neither reads nor changes the collection: on success the rest
    of the chain runs as if it were absent, on failure the collection is left
    as it was. *)
Theorem authenticate_cases (env : Env) (req : Request) :
  (x_api_key req = None \/ x_api_key req = Some "" ->
     authenticate env req = Some (http_error "API key is required" 401 None)) /\
  (forall k, x_api_key req = Some k -> k <> "" -> k <> validApiKey env ->
     authenticate env req = Some (http_error "Invalid API key" 401 None)) /\
  (forall k, x_api_key req = Some k -> k = validApiKey env ->
     authenticate env req = None) /\
  respond (Next (http_error "API key is required" 401 None))
    = {| status := 401; body := BError "API key is required" None |} /\
  respond (Next (http_error "Invalid API key" 401 None))
    = {| status := 401; body := BError "Invalid API key" None |} /\
  (forall ms handler ps,
     chain (authenticate env :: ms) req handler ps =
       match authenticate env req with
       | Some e => (Next e, ps)
       | None => chain ms req handler ps
       end).
Proof.
  unfold authenticate. repeat split.
  - intros [-> | ->]; reflexivity.
  - intros k -> Hne Hdiff.
    destruct (String.eqb_spec k ""); [contradiction|].
    destruct (String.eqb_spec k (validApiKey env)); [contradiction | reflexivity].
  - intros k -> ->.
    destruct (String.eqb_spec (validApiKey env) "") as [E|_].
    + by apply validApiKey_nonempty in E.
    + by rewrite String.eqb_refl.
Qed.

Lemma authenticate_cases_witness :
  authenticate (mkEnv None) keyless_request = Some (http_error "API key is required" 401 None).
Proof.
  apply (proj1 (authenticate_cases (mkEnv None) keyless_request)).
  left. reflexivity.
Defined.

(** ** middleware/validation.js: [validateProduct] *)

Lemma length_zero_eqb (s : string) : (String.length s =? 0)%nat = String.eqb s "".
Proof. by destruct s. Qed.

(** The test of a string field in [validateProduct] rejects exactly what is
    no non-empty string after trimming. *)
Lemma create_text_test (v : JsValue) :
  negb (truthy v) || not_nonempty_string v = negb (nonempty_text v).
Proof.
  destruct v as [| |b|n|s]; simpl; try reflexivity.
  - by destruct b.
  - by rewrite orb_true_r.
  - rewrite length_zero_eqb, !negb_involutive.
    destruct (String.eqb_spec s "") as [->|_]; reflexivity.
Qed.

Lemma create_price_test (v : JsValue) :
  negb (truthy v) || isNaN v || le_zero (parseFloat v) = negb (create_price_ok v).
Proof.
  unfold create_price_ok. rewrite !negb_andb, !negb_involutive. reflexivity.
Qed.

Lemma push_if_message (cond : bool) (msg : string) (errors : list string) :
  push_if cond msg errors = (errors ++ message_unless (negb cond) msg)%list.
Proof. destruct cond; simpl; [reflexivity | by rewrite app_nil_r]. Qed.

Lemma validateProduct_errors_fields (b : JsObject) :
  validateProduct_errors b =
    (message_unless (nonempty_text (get b "name"))
       "Name is required and must be a non-empty string" ++
     message_unless (nonempty_text (get b "description"))
       "Description is required and must be a non-empty string" ++
     message_unless (create_price_ok (get b "price"))
       "Price is required and must be a positive number" ++
     message_unless (nonempty_text (get b "category"))
       "Category is required and must be a non-empty string")%list.
Proof.
  unfold validateProduct_errors.
  rewrite !push_if_message, !create_text_test, create_price_test, !negb_involutive.
  by rewrite <- !app_assoc.
Qed.

Lemma validation_result_cases (errors : list string) :
  (errors = [] -> validation_result errors = None) /\
  (errors <> [] ->
     validation_result errors = Some (http_error "Validation failed" 400 (Some errors))).
Proof.
  split; intros H.
  - by subst.
  - destruct errors; [done | reflexivity].
Qed.

(** On a JSON number the price test of [validateProduct] accepts exactly the
    positive ones. *)
Lemma create_price_ok_number (n : number) : create_price_ok (JNum n) = positive_number n.
Proof.
  destruct n as [|neg|q]; unfold create_price_ok; simpl; try reflexivity.
  unfold is_zero.
  destruct (Z.eqb_spec (Qnum q) 0), (Z.leb_spec (Qnum q) 0), (Z.ltb_spec 0 (Qnum q));
    simpl; (reflexivity || lia).
Qed.



(** C6. A body whose price is [true] passes [validateProduct] with no
    message, although the price is present and no positive number: [true] is
    truthy, [isNaN(true)] is false ([true] converts to 1) and
    [parseFloat(true)] is [NaN], which is not [<= 0].  The create route,
    under a valid key, then answers 201 and stores the product with the
    price [NaN].  A price of white space passes in the same way. *)
Theorem validateProduct_accepts_boolean_price :
  get boolean_price_body "price" = JBool true /\
  typeof (get boolean_price_body "price") <> TNumber /\
  validateProduct_errors boolean_price_body = [] /\
  validateProduct boolean_price_create = None /\
  status (app (mkEnv None) sample_uuid boolean_price_create products).1 = 201 /\
  (fun p : Product => get p "price")
    <$> (app (mkEnv None) sample_uuid boolean_price_create products).2 !! 3%nat
    = Some (JNum NaN) /\
  get blank_price_body "price" = JStr "   " /\
  validateProduct_errors blank_price_body = [].
Proof.
  split; [reflexivity|]. split; [discriminate|].
  repeat split; vm_compute; reflexivity.
Qed.

(** ** middleware/validation.js: [validateProductUpdate] *)

(** [validateProductUpdate] tests a string field or the price only when the
    value is truthy, and then as [validateProduct] does. *)
Lemma validateProductUpdate_errors_fields (b : JsObject) :
  validateProductUpdate_errors b =
    (message_unless (negb (truthy (get b "name")) || nonempty_text (get b "name"))
       "Name must be a non-empty string" ++
     message_unless
       (negb (truthy (get b "description")) || nonempty_text (get b "description"))
       "Description must be a non-empty string" ++
     message_unless (negb (truthy (get b "price")) || create_price_ok (get b "price"))
       "Price must be a positive number" ++
     message_unless (negb (truthy (get b "category")) || nonempty_text (get b "category"))
       "Category must be a non-empty string" ++
     message_unless (is_undefined (get b "inStock") || bool_decide (typeof (get b "inStock") = TBoolean))
       "inStock must be a boolean")%list.
Proof.
  assert (Htext : forall v, negb (truthy v && not_nonempty_string v)
                            = negb (truthy v) || nonempty_text v).
  { intros v. rewrite negb_andb. f_equal.
    destruct v as [| |c|n|s]; simpl; try reflexivity.
    by rewrite length_zero_eqb. }
  assert (Hprice : forall v, negb (truthy v && (isNaN v || le_zero (parseFloat v)))
                             = negb (truthy v) || create_price_ok v).
  { intros v. unfold create_price_ok. destruct (truthy v); simpl; [|reflexivity].
    by rewrite negb_orb. }
  assert (Hbool : forall v, negb (negb (is_undefined v) && bool_decide (typeof v <> TBoolean))
                            = is_undefined v || bool_decide (typeof v = TBoolean)).
  { intros v. by destruct v. }
  unfold validateProductUpdate_errors.
  rewrite !push_if_message, !Htext, Hprice, Hbool.
  by rewrite <- !app_assoc.
Qed.

(** C3. A body whose only property is a price of 0 passes
    [validateProductUpdate], although its price is present and fails the test
    of [validateProduct]; the update route, under a valid key, then stores the
    price 0 in the first product.  An empty name passes in the same way. *)
Theorem validateProductUpdate_accepts_zero_price :
  zero_price_patch !! "price" = Some (JNum (Finite 0)) /\
  create_price_ok (get zero_price_patch "price") = false /\
  validateProductUpdate zero_price_update = None /\
  status (app (mkEnv None) "" zero_price_update products).1 = 200 /\
  (fun p : Product => get p "price") <$> (app (mkEnv None) "" zero_price_update products).2 !! 0%nat
    = Some (JNum (Finite 0)) /\
  nonempty_text (get empty_name_patch "name") = false /\
  validateProductUpdate_errors empty_name_patch = [].
Proof. repeat split; vm_compute; reflexivity. Qed.

(** What follows from it for the queries: a [null] category passes
    [validateProductUpdate] too, is stored, and the list handler, asked to
    filter by category, then ends in the error handler with status 500. *)
Example null_category_breaks_list :
  validateProductUpdate null_category_update = None /\
  status (app (mkEnv None) "" kitchen_list
            (app (mkEnv None) "" null_category_update products).2).1 = 500.
Proof. split; vm_compute; reflexivity. Qed.

(** ** routes/products.js: looking a product up *)

Lemma strict_eq_string_spec (v : JsValue) (s : string) :
  strict_eq_string v s = true <-> v = JStr s.
Proof.
  destruct v as [| |b|n|t]; simpl; try (split; [discriminate | discriminate]).
  rewrite String.eqb_eq. split; [by intros -> | by intros [= ->]].
Qed.

Lemma findIndex_Some {A : Type} (f : A -> bool) (l : list A) (i : nat) :
  findIndex f l = Some i ->
  exists x, l !! i = Some x /\ f x = true /\
            forall j y, (j < i)%nat -> l !! j = Some y -> f y = false.
Proof.
  revert i. induction l as [|a l IH]; intros i; simpl; [discriminate|].
  destruct (f a) eqn:Ha.
  - intros [= <-]. exists a. repeat split; [assumption | intros j y Hj; lia].
  - destruct (findIndex f l) as [k|]; [|discriminate].
    intros [= <-]. destruct (IH k eq_refl) as (x & Hx & Hfx & Hbefore).
    exists x. repeat split; [assumption.. |].
    intros [|j] y Hj; simpl.
    + by intros [= <-].
    + apply Hbefore. lia.
Qed.

Lemma findIndex_None {A : Type} (f : A -> bool) (l : list A) :
  findIndex f l = None <-> Forall (fun x => f x = false) l.
Proof.
  induction l as [|a l IH]; simpl.
  - split; [constructor | reflexivity].
  - destruct (f a) eqn:Ha.
    + split; [discriminate | intros H; inversion H; congruence].
    + destruct (findIndex f l); simpl.
      * split; [discriminate|]. intros H. inversion H; subst.
        by apply IH in H3.
      * split; [|reflexivity]. intros _. constructor; [assumption | by apply IH].
Qed.

(** [findIndex] finds an index exactly when some product bears the id. *)
Lemma findIndex_id (id : string) (ps : list Product) :
  (JStr id ∈ ids ps ->
     exists i, findIndex (fun p : Product => strict_eq_string (get p "id") id) ps = Some i) /\
  (JStr id ∉ ids ps ->
     findIndex (fun p : Product => strict_eq_string (get p "id") id) ps = None).
Proof.
  split; intros H.
  - destruct (findIndex _ ps) as [i|] eqn:E; [by exists i|].
    apply findIndex_None in E. unfold ids in H.
    apply list_elem_of_fmap in H as (p & Hp & Hin).
    rewrite Forall_forall in E. specialize (E p Hin). simpl in E.
    symmetry in Hp. apply strict_eq_string_spec in Hp. congruence.
  - apply findIndex_None, Forall_forall. intros p Hin.
    destruct (strict_eq_string (get p "id") id) eqn:E; [|reflexivity].
    apply strict_eq_string_spec in E. exfalso. apply H.
    unfold ids. apply list_elem_of_fmap. exists p. by split.
Qed.

(** ** routes/products.js: PUT /:id *)

Lemma merge_lookup_id (old patch : JsObject) (id : string) :
  merge old patch id !! "id" = Some (JStr id).
Proof. unfold merge. apply lookup_insert_eq. Qed.

Lemma merge_lookup_patch (old patch : JsObject) (id k : string) (v : JsValue) :
  k <> "id" -> patch !! k = Some v -> merge old patch id !! k = Some v.
Proof.
  intros Hk Hv. unfold merge. rewrite lookup_insert_ne by done.
  by apply lookup_union_Some_l.
Qed.

Lemma merge_lookup_old (old patch : JsObject) (id k : string) :
  k <> "id" -> patch !! k = None -> merge old patch id !! k = old !! k.
Proof.
  intros Hk Hv. unfold merge. rewrite lookup_insert_ne by done.
  by apply lookup_union_r.
Qed.

Lemma get_merge_id (old patch : JsObject) (id : string) :
  get (merge old patch id) "id" = JStr id.
Proof. unfold get. by rewrite merge_lookup_id. Qed.

(** Writing back a product that bears the same id leaves the identifiers of
    the collection as they were. *)
Lemma ids_insert_same (ps : list Product) (i : nat) (old new : Product) :
  ps !! i = Some old -> get new "id" = get old "id" -> ids (<[i := new]> ps) = ids ps.
Proof.
  intros Hold Hid. unfold ids. rewrite list_fmap_insert, Hid.
  apply list_insert_id. by rewrite list_lookup_fmap, Hold.
Qed.

(** C4. [update(id, patch)] on a collection holding a product with this id
    takes the first such product, answers 200 with the merged record and
    writes it back at the same index: the merged record has the id of the
    request whatever the patch says of [id], every other property of the
    patch with the value of the patch, and every property the patch lacks as
    the stored product had it; the collection keeps its length, its other
    entries and its identifiers.  When no product has the id, the collection
    is left alone and the error "Product not found" of status 404 goes to the
    error handler. *)
Theorem update_product_merges (id : string) (req : Request) (ps : list Product) :
  (JStr id ∈ ids ps ->
     exists (i : nat) (old : Product),
       ps !! i = Some old /\
       get old "id" = JStr id /\
       (forall j p, (j < i)%nat -> ps !! j = Some p -> get p "id" <> JStr id) /\
       let updated := merge old (req_body req) id in
       update_product id req ps =
         (Sent {| status := 200;
                  body := BMessageProduct "Product updated successfully" updated |},
          <[i := updated]> ps) /\
       updated !! "id" = Some (JStr id) /\
       (forall k v, k <> "id" -> req_body req !! k = Some v -> updated !! k = Some v) /\
       (forall k, k <> "id" -> req_body req !! k = None -> updated !! k = old !! k) /\
       length (<[i := updated]> ps) = length ps /\
       <[i := updated]> ps !! i = Some updated /\
       (forall j, j <> i -> <[i := updated]> ps !! j = ps !! j) /\
       ids (<[i := updated]> ps) = ids ps) /\
  (JStr id ∉ ids ps ->
     update_product id req ps = (Next not_found, ps) /\
     respond (Next not_found) = {| status := 404; body := BError "Product not found" None |}).
Proof.
  destruct (findIndex_id id ps) as [Hsome Hnone]. split; intros Hin.
  - destruct (Hsome Hin) as [i Hi].
    destruct (findIndex_Some _ _ _ Hi) as (old & Hold & Hid & Hbefore).
    apply strict_eq_string_spec in Hid.
    exists i, old. split; [assumption|]. split; [assumption|]. split.
    { intros j p Hj Hp Heq. apply strict_eq_string_spec in Heq.
      specialize (Hbefore j p Hj Hp). simpl in Hbefore. congruence. }
    intros updated. unfold update_product. rewrite Hi, Hold. simpl. fold updated.
    split; [reflexivity|].
    split; [apply merge_lookup_id|].
    split; [intros k v; apply merge_lookup_patch|].
    split; [intros k; apply merge_lookup_old|].
    split; [apply length_insert|].
    split; [apply list_lookup_insert_eq; by eapply lookup_lt_Some|].
    split; [intros j Hj; by apply list_lookup_insert_ne|].
    apply (ids_insert_same ps i old); [assumption|].
    subst updated. by rewrite get_merge_id.
  - unfold update_product. rewrite (Hnone Hin). split; reflexivity.
Qed.

Lemma update_product_merges_witness :
  exists (i : nat) (old : Product),
    products !! i = Some old /\
    update_product "1" renumbering_update products =
      (Sent {| status := 200;
               body := BMessageProduct "Product updated successfully"
                         (merge old renumbering_patch "1") |},
       <[i := merge old renumbering_patch "1"]> products) /\
    merge old renumbering_patch "1" !! "id" = Some (JStr "1").
Proof.
  destruct (proj1 (update_product_merges "1" renumbering_update products))
    as (i & old & Hold & _ & _ & Hrun & Hid & _).
  - unfold ids, products. simpl. left.
  - exists i, old. repeat split; assumption.
Defined.

(** ** routes/products.js: GET /stats *)

Lemma filter_complement_length {A : Type} (f : A -> bool) (l : list A) :
  (length (List.filter f l) + length (List.filter (fun x => negb (f x)) l))%nat = length l.
Proof.
  induction l as [|a l IH]; simpl; [reflexivity|].
  destruct (f a); simpl; lia.
Qed.

(** Counting with a boolean test and counting the elements that satisfy the
    property it decides come to the same. *)
Lemma filter_length_ext {A : Type} (f : A -> bool) (P : A -> Prop)
    `{!forall x, Decision (P x)} (l : list A) :
  Forall (fun x => f x = true <-> P x) l ->
  length (List.filter f l) = length (filter P l).
Proof.
  induction 1 as [|a l Ha _ IH]; [reflexivity|].
  simpl. rewrite filter_cons. destruct (f a) eqn:E, (decide (P a)) as [HP|HP]; simpl.
  - by rewrite IH.
  - exfalso. apply HP, Ha. reflexivity.
  - apply Ha in HP. congruence.
  - exact IH.
Qed.

(** C10. The stats route answers 200 with [totalProducts] the size of the
    whole collection, [inStock] the number of products whose [inStock] is
    truthy and [outOfStock] the number of the others, so that
    [inStock + outOfStock = totalProducts]; where every product has a boolean
    [inStock], these are the products with [inStock] true and those with
    [inStock] false. *)
Theorem stats_counts_add_up (ps : list Product) :
  exists totalProducts inStock outOfStock : nat,
    stats_products ps =
      Sent {| status := 200; body := BStats totalProducts inStock outOfStock |} /\
    totalProducts = length ps /\
    inStock = length (filter (fun p : Product => truthy (get p "inStock") = true) ps) /\
    outOfStock = length (filter (fun p : Product => truthy (get p "inStock") = false) ps) /\
    (inStock + outOfStock)%nat = totalProducts /\
    (Forall (fun p : Product => exists b, get p "inStock" = JBool b) ps ->
       inStock = length (filter (fun p : Product => get p "inStock" = JBool true) ps) /\
       outOfStock = length (filter (fun p : Product => get p "inStock" = JBool false) ps)).
Proof.
  eexists _, _, _. split; [reflexivity|]. split; [reflexivity|].
  split; [apply filter_length_ext, Forall_forall; by intros p _|].
  split.
  { apply filter_length_ext, Forall_forall. intros p _. apply negb_true_iff. }
  split; [apply filter_complement_length|].
  intros Hbool. split; apply filter_length_ext; eapply Forall_impl; try exact Hbool;
    intros p [b Hb]; simpl; rewrite Hb; destruct b; simpl; split; congruence.
Qed.

Lemma stats_counts_add_up_witness :
  stats_products products = Sent {| status := 200; body := BStats 3 2 1 |} /\
  length (filter (fun p : Product => get p "inStock" = JBool true) products) = 2%nat.
Proof.
  destruct (stats_counts_add_up products) as (t & i & o & Hrun & Ht & Hi & Ho & Hsum & Hbool).
  split; [reflexivity|].
  destruct Hbool as [Hin _].
  - unfold products. repeat constructor; eexists; reflexivity.
  - rewrite <- Hin, Hi. reflexivity.
Defined.

(** ** Numbers: rounding to binary64 *)
























(** ** routes/products.js: GET /search *)

(** Where the callback never throws, [filterC] is [filter]. *)
Lemma filterC_Normal {A : Type} (f : A -> Completion bool) (g : A -> bool) (l : list A) :
  Forall (fun x => f x = Normal (g x)) l -> filterC f l = Normal (List.filter g l).
Proof.
  induction 1 as [|a l Ha _ IH]; [reflexivity|].
  simpl. rewrite Ha, IH. simpl. by destruct (g a).
Qed.







Lemma filterC_Throw {A : Type} (f : A -> Completion bool) (l : list A) :
  (exists e, filterC f l = Throw e) <-> Exists (fun x => exists e, f x = Throw e) l.
Proof.
  induction l as [|a l IH]; simpl.
  - split; [by intros [e [=]] | by intros H%Exists_nil].
  - rewrite Exists_cons. destruct (f a) as [b|e]; simpl.
    + destruct (filterC f l) as [r|e]; simpl.
      * split; [by intros [e [=]]|]. intros [[e [=]] | H].
        apply IH in H as [e [=]].
      * split; [intros _; right; apply IH; eauto | eauto].
    + split; eauto.
Qed.

Lemma filterC_Throw_from {A : Type} (f : A -> Completion bool) (l : list A) (e : JsError) :
  filterC f l = Throw e -> Exists (fun x => f x = Throw e) l.
Proof.
  induction l as [|a l IH]; simpl; [discriminate|].
  destruct (f a) as [b|e'] eqn:Ha; simpl.
  - destruct (filterC f l) as [r|e']; simpl; [discriminate|].
    intros [= ->]. right. by apply IH.
  - intros [= ->]. by left.
Qed.

Lemma call_toLowerCase_cases (expr : string) (v : JsValue) :
  (is_string v = true /\ exists s, v = JStr s /\ call_toLowerCase expr v = Normal (toLowerCase s)) \/
  (is_string v = false /\ exists msg, call_toLowerCase expr v = Throw (TypeError msg)).
Proof.
  destruct v; simpl; eauto.
Qed.

Lemma search_matches_cases (q : string) (p : Product) :
  (search_throws q p = false /\
   search_matches (toLowerCase q) p = Normal (search_hit q p)) \/
  (search_throws q p = true /\
   exists msg, search_matches (toLowerCase q) p = Throw (TypeError msg)).
Proof.
  unfold search_throws, search_matches, search_hit.
  destruct (get p "name") as [| | | |n]; simpl; eauto.
  destruct (includes (toLowerCase n) (toLowerCase q)); simpl; [by left|].
  destruct (get p "description") as [| | | |d]; simpl; eauto.
Qed.

(** The search handler once [q] is known to be a non-empty string. *)
Lemma search_products_nonempty (req : Request) (ps : list Product) (q : string) :
  query req !! "q" = Some (QString q) -> q <> "" ->
  search_products req ps =
    match filterC (search_matches (toLowerCase q)) ps with
    | Normal searchResults =>
        Sent {| status := 200;
                body := BSearch (toLowerCase q) (length searchResults) searchResults |}
    | Throw error => Next error
    end.
Proof.
  intros Hq Hne. unfold search_products. rewrite Hq. simpl.
  destruct (String.eqb_spec (toLowerCase q) "") as [E|_]; [|reflexivity].
  exfalso. by apply Hne, toLowerCase_empty.
Qed.



(** ** routes/products.js: GET / *)









(** ** Numbers: the arithmetic of the page *)
















(** *** [slice] between indices that stand for integers *)



Lemma slice_sublist {A : Type} (l : list A) (s e : number) : sublist (slice l s e) l.
Proof.
  unfold slice. etransitivity; [apply sublist_take | apply sublist_drop].
Qed.





(** *** What [parseInt] returns *)



(** ** routes/products.js: the filters of GET / *)










(** ** routes/products.js: the page of GET / *)




(** A limit of 401 digits is the number [Infinity]: no pages, no data. *)
Example huge_limit_is_infinite :
  list_products huge_limit products =
    Sent {| status := 200; body := BList 3 (of_Z 1) (Infinity false) (of_Z 0) [] |}.
Proof. vm_compute. reflexivity. Qed.
(** ** The router: which route serves a request *)

Lemma literal_is_param (req : Request) (r : Route) (l : string) :
  route_method r = "GET" -> route_path r = Literal l -> l <> "" ->
  route_matches req r = true -> route_matches req GetRoute = true.
Proof.
  unfold route_matches. intros -> -> Hl [Hm Hp]%andb_true_iff.
  simpl. rewrite Hm. simpl.
  destruct (path req) as [|s [|? ?]]; simpl in *; try discriminate.
  destruct (String.eqb_spec s "") as [->|_]; [|reflexivity].
  simpl in Hp. destruct l; [by destruct Hl | discriminate].
Qed.

(** No request is handed to the search route or to the stats route. *)
Lemma dispatch_never_literal (req : Request) :
  dispatch req <> Some SearchRoute /\ dispatch req <> Some StatsRoute.
Proof.
  pose proof (literal_is_param req SearchRoute "search" eq_refl eq_refl) as Hsearch.
  pose proof (literal_is_param req StatsRoute "stats" eq_refl eq_refl) as Hstats.
  unfold dispatch, stack. simpl.
  destruct (route_matches req ListRoute); [split; discriminate|].
  destruct (route_matches req GetRoute); [split; discriminate|].
  destruct (route_matches req CreateRoute); [split; discriminate|].
  destruct (route_matches req UpdateRoute); [split; discriminate|].
  destruct (route_matches req DeleteRoute); [split; discriminate|].
  destruct (route_matches req SearchRoute).
  { exfalso. by discriminate Hsearch. }
  destruct (route_matches req StatsRoute).
  { exfalso. by discriminate Hstats. }
  split; discriminate.
Qed.

(** ** The collections the service reaches *)

Section Reachable.

Context (env : Env).

Lemma find_none_Forall {A : Type} (f : A -> bool) (l : list A) :
  Forall (fun x => f x = false) l -> List.find f l = None.
Proof. induction 1 as [|a l Ha _ IH]; simpl; [reflexivity | by rewrite Ha]. Qed.

Lemma app_store (uuid : string) (req : Request) (ps : list Product) :
  (app env uuid req ps).2 =
    match dispatch req with
    | Some r => (run_route env uuid r req ps).2
    | None => ps
    end.
Proof.
  unfold app, router, logger. destruct (dispatch req) as [r|]; simpl; [|reflexivity].
  by destruct (run_route env uuid r req ps).
Qed.

Lemma chain_cases (ms : list (Request -> option JsError)) (req : Request)
    (handler : list Product -> Outcome * list Product) (ps : list Product) :
  (exists e, chain ms req handler ps = (Next e, ps)) \/ chain ms req handler ps = handler ps.
Proof.
  induction ms as [|m ms IH]; simpl; [by right|].
  destruct (m req) as [e|]; [left; by exists e | exact IH].
Qed.

(** What one route does to the identifiers of the collection: nothing, one
    more at the end, or one less. *)
Lemma run_route_ids (uuid : string) (r : Route) (req : Request)
    (ps : list Product) :
  let ps' := (run_route env uuid r req ps).2 in
  ids ps' = ids ps \/
  ids ps' = (ids ps ++ [JStr uuid])%list \/
  exists i, ids ps' = delete i (ids ps).
Proof.
  intros ps'. subst ps'. destruct r; unfold run_route; try by left.
  - destruct (chain_cases [authenticate env; validateProduct] req
                (create_product uuid req) ps) as [[e ->] | ->]; [by left|].
    right. left. unfold create_product, ids. simpl. rewrite fmap_app. simpl.
    do 2 f_equal.
  - destruct (chain_cases [authenticate env; validateProductUpdate] req
                (update_product (params_id req) req) ps) as [[e ->] | ->]; [by left|].
    unfold update_product.
    destruct (findIndex _ ps) as [i|] eqn:Hi; simpl; [|by left].
    destruct (findIndex_Some _ _ _ Hi) as (old & Hold & Hid & _).
    apply strict_eq_string_spec in Hid. left. rewrite Hold. simpl.
    apply (ids_insert_same ps i old); [assumption|].
    by rewrite get_merge_id.
  - destruct (chain_cases [authenticate env] req
                (delete_product (params_id req)) ps) as [[e ->] | ->]; [by left|].
    unfold delete_product.
    destruct (findIndex _ ps) as [i|]; simpl; [|by left].
    right. right. exists i. apply list_fmap_delete.
Qed.

Lemma app_ids (uuid : string) (req : Request) (ps : list Product) :
  let ps' := (app env uuid req ps).2 in
  ids ps' = ids ps \/
  ids ps' = (ids ps ++ [JStr uuid])%list \/
  exists i, ids ps' = delete i (ids ps).
Proof.
  simpl. rewrite app_store. destruct (dispatch req) as [r|]; [|by left].
  apply run_route_ids.
Qed.

Lemma uuid_not_seed (u : string) : is_uuid u = true -> u ∉ seed_ids.
Proof.
  intros Hu Hin. unfold seed_ids in Hin.
  rewrite !elem_of_cons in Hin.
  destruct Hin as [-> | [-> | [-> | Hin]]]; try discriminate.
  by apply elem_of_nil in Hin.
Qed.

Lemma store_inv_fresh (issued : list string) (ps : list Product) (uuid : string) :
  store_inv issued ps -> is_uuid uuid = true -> uuid ∉ issued -> JStr uuid ∉ ids ps.
Proof.
  intros (_ & Hids & _) Hu Hfresh Hin.
  rewrite Forall_forall in Hids. destruct (Hids _ Hin) as (s & [= <-] & [Hs | Hs]).
  - by apply (uuid_not_seed uuid).
  - contradiction.
Qed.

Lemma store_inv_step (issued : list string) (ps : list Product)
    (uuid : string) (req : Request) :
  store_inv issued ps -> is_uuid uuid = true -> uuid ∉ issued ->
  store_inv (uuid :: issued) (app env uuid req ps).2.
Proof.
  intros Hinv Hu Hfresh.
  pose proof (store_inv_fresh issued ps uuid Hinv Hu Hfresh) as Hnew.
  destruct Hinv as (Hissued & Hids & Hnodup).
  assert (Hids' : Forall (fun v => exists s, v = JStr s /\
                                   (s ∈ seed_ids \/ s ∈ uuid :: issued)) (ids ps)).
  { eapply Forall_impl; [exact Hids|]. intros v (s & -> & [Hs | Hs]); exists s; split;
      [reflexivity | by left | reflexivity | right; by right]. }
  split; [by constructor|].
  destruct (app_ids uuid req ps) as [-> | [-> | [i ->]]].
  - by split.
  - split.
    + apply Forall_app. split; [assumption|]. constructor; [|constructor].
      exists uuid. split; [reflexivity|]. right. by left.
    + apply NoDup_app. repeat split; [assumption | | apply NoDup_singleton].
      intros v Hv ->%list_elem_of_singleton. contradiction.
  - split.
    + apply Forall_forall. intros v Hv%list_elem_of_delete_inv.
      rewrite Forall_forall in Hids'. by apply Hids'.
    + exact (sublist_NoDup _ _ Hnodup (sublist_delete _ _)).
Qed.

Lemma store_inv_init : store_inv [] products.
Proof.
  split; [constructor|]. split.
  - unfold ids, products. simpl. repeat constructor.
    + exists "1". split; [reflexivity|]. left. unfold seed_ids. set_solver.
    + exists "2". split; [reflexivity|]. left. unfold seed_ids. set_solver.
    + exists "3". split; [reflexivity|]. left. unfold seed_ids. set_solver.
  - compute_done.
Qed.

Lemma reachable_inv (issued : list string) (ps : list Product) :
  reachable env issued ps -> store_inv issued ps.
Proof.
  induction 1 as [|issued ps uuid req _ IH Hu Hfresh].
  - apply store_inv_init.
  - by apply store_inv_step.
Qed.

Lemma no_product_bears (issued : list string) (ps : list Product) (id : string) :
  store_inv issued ps -> is_uuid id = false -> id ∉ seed_ids ->
  Forall (fun p : Product => strict_eq_string (get p "id") id = false) ps.
Proof.
  intros (Hissued & Hids & _) Hid Hseed. apply Forall_forall. intros p Hp.
  destruct (strict_eq_string (get p "id") id) eqn:E; [exfalso | reflexivity].
  apply strict_eq_string_spec in E.
  rewrite Forall_forall in Hids.
  destruct (Hids (get p "id")) as (s & Hs & [Hin | Hin]).
  - unfold ids. apply list_elem_of_fmap. by exists p.
  - rewrite E in Hs. injection Hs as <-. contradiction.
  - rewrite E in Hs. injection Hs as <-.
    rewrite Forall_forall in Hissued. specialize (Hissued id Hin). congruence.
Qed.

(** C2. The route [GET /:id] is registered before [GET /search] and
    [GET /stats].  Whatever collection the service has reached, a [GET] of
    [/search] or of [/stats] is handed to the get-by-id route with [search]
    or [stats] as id; no product bears such an id, so the answer is the 404
    error "Product not found" and the collection stays as it is.  No request
    at all is handed to the search route or to the stats route. *)
Theorem search_and_stats_shadowed (issued : list string)
    (ps : list Product) (uuid : string) (req : Request) :
  reachable env issued ps ->
  method req = "GET" ->
  path req = ["search"] \/ path req = ["stats"] ->
  dispatch req = Some GetRoute /\
  (params_id req = "search" \/ params_id req = "stats") /\
  Forall (fun p : Product => get p "id" <> JStr (params_id req)) ps /\
  app env uuid req ps = ({| status := 404; body := BError "Product not found" None |}, ps) /\
  (forall req', dispatch req' <> Some SearchRoute /\ dispatch req' <> Some StatsRoute).
Proof.
  intros Hreach Hm Hp. apply reachable_inv in Hreach.
  assert (Hdispatch : dispatch req = Some GetRoute).
  { unfold dispatch, route_matches. destruct Hp as [Hp | Hp]; rewrite Hm, Hp; reflexivity. }
  assert (Hid : params_id req = "search" \/ params_id req = "stats").
  { unfold params_id. destruct Hp as [-> | ->]; [by left | by right]. }
  assert (Hnone : Forall (fun p : Product =>
                    strict_eq_string (get p "id") (params_id req) = false) ps).
  { destruct Hid as [-> | ->];
      (eapply no_product_bears; [exact Hreach | reflexivity | compute_done]). }
  split; [assumption|]. split; [assumption|]. split.
  { eapply Forall_impl; [exact Hnone|]. intros p Hfalse Heq.
    apply strict_eq_string_spec in Heq. simpl in Hfalse. congruence. }
  split; [|apply dispatch_never_literal].
  unfold app, router, logger. rewrite Hdispatch. simpl.
  unfold get_product. by rewrite (find_none_Forall _ _ Hnone).
Qed.

(** ** routes/products.js: POST / *)

(** C5. Let the service have reached a collection and let [uuidv4()] return
    a string it has not returned before.  Then no product of the collection
    bears this string as identifier; a create request that passes
    [authenticate] and [validateProduct] is answered 201 with the new
    product, which bears the string as identifier, takes its other fields
    from the body, and is the last of the collection, after the products
    that were there; and whichever request the service serves, create or
    other, no identifier occurs twice in the collection before or after. *)
Theorem create_assigns_fresh_id (issued : list string)
    (ps : list Product) (uuid : string) (req : Request) :
  reachable env issued ps ->
  is_uuid uuid = true ->
  uuid ∉ issued ->
  NoDup (ids ps) /\
  (JStr uuid ∉ ids ps) /\
  NoDup (ids (app env uuid req ps).2) /\
  (method req = "POST" -> path req = [] ->
   authenticate env req = None -> validateProduct req = None ->
   exists newProduct : Product,
     app env uuid req ps =
       ({| status := 201;
           body := BMessageProduct "Product created successfully" newProduct |},
        (ps ++ [newProduct])%list) /\
     get newProduct "id" = JStr uuid /\
     get newProduct "name" = get (req_body req) "name" /\
     get newProduct "description" = get (req_body req) "description" /\
     get newProduct "price" = JNum (parseFloat (get (req_body req) "price")) /\
     get newProduct "category" = get (req_body req) "category" /\
     get newProduct "inStock" = JBool (truthy (get (req_body req) "inStock"))).
Proof.
  intros Hreach Hu Hfresh. apply reachable_inv in Hreach.
  pose proof (store_inv_step issued ps uuid req Hreach Hu Hfresh) as (_ & _ & Hafter).
  pose proof (store_inv_fresh issued ps uuid Hreach Hu Hfresh) as Hnew.
  destruct Hreach as (_ & _ & Hbefore).
  split; [assumption|]. split; [assumption|]. split; [assumption|].
  intros Hm Hp Hauth Hvalid. eexists. split.
  - unfold app, router, logger, dispatch, route_matches. rewrite Hm, Hp. simpl.
    rewrite Hauth, Hvalid. unfold create_product. reflexivity.
  - repeat split.
Qed.

End Reachable.

Lemma search_and_stats_shadowed_witness :
  dispatch get_search = Some GetRoute /\
  app (mkEnv None) sample_uuid get_search products =
    ({| status := 404; body := BError "Product not found" None |}, products).
Proof.
  destruct (search_and_stats_shadowed (mkEnv None) [] products sample_uuid get_search
              (reachable_init _) eq_refl (or_introl eq_refl))
    as (Hdispatch & _ & _ & Hrun & _).
  split; [exact Hdispatch | exact Hrun].
Defined.

Lemma create_assigns_fresh_id_witness :
  (JStr sample_uuid ∉ ids products) /\
  exists newProduct : Product,
    app (mkEnv None) sample_uuid mug_create products =
      ({| status := 201;
          body := BMessageProduct "Product created successfully" newProduct |},
       (products ++ [newProduct])%list) /\
    get newProduct "id" = JStr sample_uuid.
Proof.
  destruct (create_assigns_fresh_id (mkEnv None) [] products sample_uuid mug_create
              (reachable_init _) eq_refl (not_elem_of_nil _))
    as (_ & Hnew & _ & Hcreate).
  split; [exact Hnew|].
  destruct (Hcreate eq_refl eq_refl eq_refl eq_refl) as (newProduct & Hrun & Hid & _).
  exists newProduct. split; [exact Hrun | exact Hid].
Defined.

(** * Further properties of the service *)

(** ** The chain of a route: authentication, validation, handler *)

Lemma app_route (env : Env) (uuid : string) (req : Request) (ps : list Product) (r : Route) :
  dispatch req = Some r ->
  app env uuid req ps =
    (respond (run_route env uuid r req ps).1, (run_route env uuid r req ps).2).
Proof.
  intros Hr. unfold app, router, logger. rewrite Hr. simpl.
  by destruct (run_route env uuid r req ps).
Qed.

Lemma authenticate_errors (env : Env) (req : Request) (e : JsError) :
  authenticate env req = Some e ->
  exists msg, (msg = "API key is required" \/ msg = "Invalid API key") /\
              e = http_error msg 401 None.
Proof.
  unfold authenticate. destruct (x_api_key req) as [k|].
  - destruct (String.eqb k ""); [intros [= <-]; eauto|].
    destruct (String.eqb k (validApiKey env)); simpl; [discriminate|].
    intros [= <-]; eauto.
  - intros [= <-]; eauto.
Qed.

(** X1. A request for one of the three routes that change the collection
    and that fails [authenticate] is answered 401 with one of the two
    messages of [authenticate], and the collection stays as it is, whatever
    the body holds and whether or not a product bears the id: authentication
    comes before validation and before the lookup. *)
Theorem unauthenticated_write_rejected (env : Env) (uuid : string) (req : Request)
    (ps : list Product) (r : Route) :
  dispatch req = Some r ->
  write_route r = true ->
  authenticate env req <> None ->
  exists msg,
    (msg = "API key is required" \/ msg = "Invalid API key") /\
    app env uuid req ps = ({| status := 401; body := BError msg None |}, ps).
Proof.
  intros Hr Hw Hauth. destruct (authenticate env req) as [e|] eqn:He; [|done].
  destruct (authenticate_errors env req e He) as (msg & Hmsg & ->).
  exists msg. split; [exact Hmsg|].
  rewrite (app_route env uuid req ps r Hr).
  destruct r; try discriminate; simpl; rewrite He; simpl;
    destruct Hmsg as [-> | ->]; reflexivity.
Qed.

Lemma unauthenticated_write_rejected_witness :
  exists msg,
    app (mkEnv None) "" keyless_delete products =
      ({| status := 401; body := BError msg None |}, products).
Proof.
  destruct (unauthenticated_write_rejected (mkEnv None) "" keyless_delete products
              DeleteRoute eq_refl eq_refl ltac:(discriminate)) as (msg & _ & Hrun).
  by exists msg.
Defined.

(** X2. An authenticated create or update request whose body fails its
    validator is answered with status 400 and the message "Validation
    failed" alone: the list of violations the validator attached to the
    error is not in the answer.  The collection stays as it is, and for an
    update that holds whether or not a product bears the id: validation
    comes before the lookup. *)
Theorem invalid_body_rejected (env : Env) (uuid : string) (req : Request)
    (ps : list Product) :
  authenticate env req = None ->
  (dispatch req = Some CreateRoute -> validateProduct_errors (req_body req) <> [] ->
     app env uuid req ps = ({| status := 400; body := BError "Validation failed" None |}, ps)) /\
  (dispatch req = Some UpdateRoute -> validateProductUpdate_errors (req_body req) <> [] ->
     app env uuid req ps = ({| status := 400; body := BError "Validation failed" None |}, ps)).
Proof.
  intros Hauth. split; intros Hr Herr; rewrite (app_route env uuid req ps _ Hr); simpl;
    rewrite Hauth.
  - unfold validateProduct.
    rewrite (proj2 (validation_result_cases _) Herr). reflexivity.
  - unfold validateProductUpdate.
    rewrite (proj2 (validation_result_cases _) Herr). reflexivity.
Qed.

Lemma invalid_body_rejected_witness :
  app (mkEnv None) "" negative_price_update products =
    ({| status := 400; body := BError "Validation failed" None |}, products) /\
  JStr "999" ∉ ids products.
Proof.
  split.
  - apply (proj2 (invalid_body_rejected (mkEnv None) "" negative_price_update products
                    eq_refl)); [reflexivity | discriminate].
  - compute_done.
Defined.

(** ** utils/errors.js: the error classes and [errorHandler] *)

(** X3. [errorHandler] answers an instance of [NotFoundError] with status
    404 and one of [AuthenticationError] with status 401, each with the
    message of the instance (the default of the class when none was given).
    An instance of [ValidationError], whatever its message and details, it
    does not answer: the name sends it to the branch that reads
    [err.errors], which the class does not set, and the handler throws. *)
Theorem errorHandler_on_classes (msg : option string) (d : option (list string)) :
  errorHandler_instance NotFoundErrorClass (NotFoundError msg) =
    Some {| status := 404; body := BError (default "Resource not found" msg) None |} /\
  errorHandler_instance AuthenticationErrorClass (AuthenticationError msg) =
    Some {| status := 401; body := BError (default "Authentication failed" msg) None |} /\
  errorHandler_instance ValidationErrorClass (ValidationError msg d) = None /\
  errorHandler (ValidationError msg d) = None.
Proof. repeat split. Qed.

(** ** routes/products.js: DELETE /:id *)

(** X4. [DELETE /:id] on a collection holding a product with this id takes
    out the first such product and nothing else: the answer is 200 with the
    product removed, the collection is one shorter and keeps the products
    before and after it in their order.  When no product has the id, the
    collection is left alone and the error "Product not found" of status 404
    is raised. *)
Theorem delete_product_removes (id : string) (ps : list Product) :
  (JStr id ∈ ids ps ->
     exists (i : nat) (removed : Product),
       ps !! i = Some removed /\
       get removed "id" = JStr id /\
       (forall j p, (j < i)%nat -> ps !! j = Some p -> get p "id" <> JStr id) /\
       delete_product id ps =
         (Sent {| status := 200;
                  body := BMessageProduct "Product deleted successfully" removed |},
          delete i ps) /\
       delete i ps = (take i ps ++ drop (S i) ps)%list /\
       S (length (delete i ps)) = length ps) /\
  (JStr id ∉ ids ps ->
     delete_product id ps = (Next not_found, ps) /\
     respond (Next not_found) = {| status := 404; body := BError "Product not found" None |}).
Proof.
  destruct (findIndex_id id ps) as [Hsome Hnone]. split; intros Hin.
  - destruct (Hsome Hin) as [i Hi].
    destruct (findIndex_Some _ _ _ Hi) as (removed & Hrem & Hid & Hbefore).
    apply strict_eq_string_spec in Hid.
    exists i, removed. split; [assumption|]. split; [assumption|]. split.
    { intros j p Hj Hp Heq. apply strict_eq_string_spec in Heq.
      specialize (Hbefore j p Hj Hp). simpl in Hbefore. congruence. }
    split; [unfold delete_product; by rewrite Hi, Hrem|].
    split; [apply delete_take_drop|].
    rewrite length_delete by eauto.
    apply lookup_lt_Some in Hrem. lia.
  - unfold delete_product. rewrite (Hnone Hin). split; reflexivity.
Qed.

Lemma delete_product_removes_witness :
  exists (i : nat) (removed : Product),
    delete_product "2" products =
      (Sent {| status := 200;
               body := BMessageProduct "Product deleted successfully" removed |},
       delete i products) /\
    S (length (delete i products)) = 3%nat.
Proof.
  destruct (proj1 (delete_product_removes "2" products))
    as (i & removed & _ & _ & _ & Hrun & _ & Hlen).
  - unfold ids, products. simpl. right. left.
  - exists i, removed. split; [exact Hrun | exact Hlen].
Defined.

(** ** routes/products.js: reading back what was written *)

Lemma find_findIndex {A : Type} (f : A -> bool) (l : list A) :
  List.find f l = findIndex f l ≫= (l !!.).
Proof.
  induction l as [|a l IH]; simpl; [reflexivity|].
  destruct (f a); [reflexivity|]. rewrite IH. by destruct (findIndex f l).
Qed.

Lemma findIndex_insert {A : Type} (f : A -> bool) (l : list A) (i : nat) (x : A) :
  findIndex f l = Some i -> f x = true -> findIndex f (<[i := x]> l) = Some i.
Proof.
  revert i. induction l as [|a l IH]; intros i; simpl; [discriminate|].
  destruct (f a) eqn:Ha.
  - intros [= <-] Hx. simpl. by rewrite Hx.
  - destruct (findIndex f l) as [k|]; [|discriminate].
    intros [= <-] Hx. simpl. by rewrite Ha, (IH k eq_refl Hx).
Qed.

Lemma find_app_fresh {A : Type} (f : A -> bool) (l : list A) (x : A) :
  Forall (fun y => f y = false) l -> f x = true -> List.find f (l ++ [x]) = Some x.
Proof.
  induction 1 as [|a l Ha _ IH]; intros Hx; simpl; [by rewrite Hx|].
  rewrite Ha. by apply IH.
Qed.

Lemma NoDup_delete_gone {A : Type} (l : list A) (i : nat) (x : A) :
  NoDup l -> l !! i = Some x -> x ∉ delete i l.
Proof.
  intros Hnd Hx. rewrite delete_take_drop.
  rewrite <- (take_drop_middle l i x Hx) in Hnd.
  apply NoDup_app in Hnd as (_ & Hleft & Hright).
  apply NoDup_cons in Hright as [Hnotin _].
  intros [Hin | Hin]%elem_of_app; [|contradiction].
  apply (Hleft x Hin). by left.
Qed.

Lemma uuid_nonempty (u : string) : is_uuid u = true -> u <> "".
Proof. by intros Hu ->. Qed.

Lemma dispatch_get_id (req : Request) (id : string) :
  method req = "GET" -> path req = [id] -> id <> "" ->
  dispatch req = Some GetRoute /\ params_id req = id.
Proof.
  intros Hm Hp Hid. unfold dispatch, route_matches, params_id. rewrite Hm, Hp. simpl.
  destruct (String.eqb_spec id ""); [contradiction | by split].
Qed.

(** An accepted create request: the answer, the product and where it goes. *)
Lemma create_accepted (env : Env) (uuid : string) (req : Request) (ps : list Product) :
  method req = "POST" -> path req = [] ->
  authenticate env req = None -> validateProduct req = None ->
  exists newProduct : Product,
    app env uuid req ps =
      ({| status := 201;
          body := BMessageProduct "Product created successfully" newProduct |},
       (ps ++ [newProduct])%list) /\
    get newProduct "id" = JStr uuid.
Proof.
  intros Hm Hp Hauth Hvalid. eexists. split.
  - unfold app, router, logger, dispatch, route_matches. rewrite Hm, Hp. simpl.
    rewrite Hauth, Hvalid. unfold create_product. reflexivity.
  - unfold get. by rewrite lookup_insert_eq.
Qed.

(** X5. Create, then read: when a create request is accepted, storing its
    product under the fresh identifier [uuid], a following [GET] of that
    identifier is answered 200 with the very product the create request was
    answered with. *)
Theorem create_then_get (env : Env) (issued : list string) (ps : list Product)
    (uuid uuid' : string) (req req' : Request) :
  reachable env issued ps ->
  is_uuid uuid = true ->
  uuid ∉ issued ->
  method req = "POST" -> path req = [] ->
  authenticate env req = None -> validateProduct req = None ->
  method req' = "GET" -> path req' = [uuid] ->
  exists newProduct : Product,
    (app env uuid req ps).1 =
      {| status := 201;
         body := BMessageProduct "Product created successfully" newProduct |} /\
    app env uuid' req' (app env uuid req ps).2 =
      ({| status := 200; body := BProduct newProduct |}, (app env uuid req ps).2).
Proof.
  intros Hreach Hu Hfresh Hm Hp Hauth Hvalid Hm' Hp'.
  pose proof (store_inv_fresh issued ps uuid (reachable_inv env issued ps Hreach) Hu Hfresh)
    as Hnew.
  destruct (create_accepted env uuid req ps Hm Hp Hauth Hvalid)
    as (newProduct & Hrun & Hid).
  exists newProduct. rewrite Hrun. split; [reflexivity|]. simpl.
  destruct (dispatch_get_id req' uuid Hm' Hp' (uuid_nonempty uuid Hu)) as [Hd Hpid].
  rewrite (app_route env uuid' req' _ GetRoute Hd). simpl. rewrite Hpid.
  unfold get_product. rewrite find_app_fresh; [reflexivity | |].
  - apply Forall_forall. intros p Hin.
    destruct (strict_eq_string (get p "id") uuid) eqn:E; [|reflexivity].
    apply strict_eq_string_spec in E. exfalso. apply Hnew.
    unfold ids. apply list_elem_of_fmap. by exists p.
  - by apply strict_eq_string_spec.
Qed.

Lemma create_then_get_witness :
  exists newProduct : Product,
    (app (mkEnv None) sample_uuid mug_create products).1 =
      {| status := 201;
         body := BMessageProduct "Product created successfully" newProduct |} /\
    (app (mkEnv None) "" get_sample (app (mkEnv None) sample_uuid mug_create products).2).1 =
      {| status := 200; body := BProduct newProduct |}.
Proof.
  destruct (create_then_get (mkEnv None) [] products sample_uuid "" mug_create get_sample
              (reachable_init _) eq_refl (not_elem_of_nil _)
              eq_refl eq_refl eq_refl eq_refl eq_refl eq_refl)
    as (newProduct & Hcreate & Hget).
  exists newProduct. split; [exact Hcreate | by rewrite Hget].
Defined.

(** X6. Update, then read: where a product bears the id, reading the id
    after an update gives the product that reading it before gave, merged
    with the patch. *)
Theorem update_then_get (id : string) (req : Request) (ps : list Product) :
  JStr id ∈ ids ps ->
  exists old : Product,
    get_product id ps = Sent {| status := 200; body := BProduct old |} /\
    get_product id (update_product id req ps).2 =
      Sent {| status := 200; body := BProduct (merge old (req_body req) id) |}.
Proof.
  intros Hin. destruct (proj1 (findIndex_id id ps) Hin) as [i Hi].
  destruct (findIndex_Some _ _ _ Hi) as (old & Hold & _).
  exists old. unfold get_product, update_product. rewrite !find_findIndex, Hi. simpl.
  rewrite Hold. simpl. split; [reflexivity|].
  rewrite (findIndex_insert _ ps i _ Hi).
  - simpl. rewrite list_lookup_insert_eq by (by eapply lookup_lt_Some). reflexivity.
  - apply strict_eq_string_spec, get_merge_id.
Qed.

Lemma update_then_get_witness :
  exists old : Product,
    get_product "2" products = Sent {| status := 200; body := BProduct old |} /\
    get (merge old (req_body price_update) "2") "price" = JNum (Finite 15) /\
    get_product "2" (update_product "2" price_update products).2 =
      Sent {| status := 200; body := BProduct (merge old (req_body price_update) "2") |}.
Proof.
  destruct (update_then_get "2" price_update products) as (old & Hbefore & Hafter).
  - unfold ids, products. simpl. right. left.
  - exists old. split; [exact Hbefore|]. split; [|exact Hafter].
    unfold get. erewrite merge_lookup_patch; [reflexivity | discriminate | reflexivity].
Defined.

(** X7. Delete, then read: in a collection where no identifier occurs twice
    (as in every collection the service reaches), a product deleted by its id
    is gone: reading the id afterwards raises "Product not found", and so
    does deleting it once more, which leaves the collection as it is. *)
Theorem delete_then_get (id : string) (ps : list Product) :
  NoDup (ids ps) ->
  JStr id ∈ ids ps ->
  let ps' := (delete_product id ps).2 in
  (JStr id ∉ ids ps') /\
  get_product id ps' = Next not_found /\
  delete_product id ps' = (Next not_found, ps').
Proof.
  intros Hnd Hin ps'.
  destruct (proj1 (findIndex_id id ps) Hin) as [i Hi].
  destruct (findIndex_Some _ _ _ Hi) as (removed & Hrem & Hid & _).
  apply strict_eq_string_spec in Hid.
  assert (Hrun : (delete_product id ps).2 = delete i ps).
  { unfold delete_product. by rewrite Hi. }
  assert (Hgone : JStr id ∉ ids ps').
  { subst ps'. rewrite Hrun. unfold ids. rewrite list_fmap_delete.
    apply NoDup_delete_gone; [exact Hnd|]. by rewrite list_lookup_fmap, Hrem, <- Hid. }
  split; [exact Hgone|].
  pose proof (proj2 (findIndex_id id ps') Hgone) as Hnone. split.
  - unfold get_product. by rewrite find_findIndex, Hnone.
  - unfold delete_product. by rewrite Hnone.
Qed.

Lemma delete_then_get_witness :
  get_product "1" (delete_product "1" products).2 = Next not_found.
Proof.
  apply (delete_then_get "1" products).
  - compute_done.
  - unfold ids, products. simpl. left.
Defined.

(** X8. Sending the same update twice changes nothing the second time: the
    answer and the collection are those of the first update. *)
Theorem update_twice (id : string) (req : Request) (ps : list Product) :
  update_product id req (update_product id req ps).2 = update_product id req ps.
Proof.
  unfold update_product at 2 3.
  destruct (findIndex _ ps) as [i|] eqn:Hi; simpl.
  - destruct (findIndex_Some _ _ _ Hi) as (old & Hold & _). rewrite Hold. simpl.
    unfold update_product. rewrite (findIndex_insert _ ps i _ Hi).
    + rewrite list_lookup_insert_eq by (by eapply lookup_lt_Some). simpl.
      assert (Hmerge : merge (merge old (req_body req) id) (req_body req) id
                       = merge old (req_body req) id).
      { apply map_eq. intros k. destruct (decide (k = "id")) as [->|Hk].
        - by rewrite !merge_lookup_id.
        - destruct (req_body req !! k) as [v|] eqn:Hv.
          + by rewrite !(merge_lookup_patch _ _ _ k v).
          + by rewrite (merge_lookup_old _ _ _ k Hk Hv). }
      rewrite Hmerge. by rewrite list_insert_insert_eq.
    + apply strict_eq_string_spec, get_merge_id.
  - unfold update_product. by rewrite Hi.
Qed.

(** ** middleware/validation.js: the two validators side by side *)

Lemma message_unless_nil (ok : bool) (msg : string) : message_unless ok msg = [] <-> ok = true.
Proof. destruct ok; simpl; split; (reflexivity || discriminate). Qed.

Lemma validation_result_None (errors : list string) :
  validation_result errors = None <-> errors = [].
Proof. destruct errors; simpl; split; (reflexivity || discriminate). Qed.

(** What a body that passes [validateProduct] holds. *)
Lemma validateProduct_passed (req : Request) :
  validateProduct req = None ->
  nonempty_text (get (req_body req) "name") = true /\
  nonempty_text (get (req_body req) "description") = true /\
  create_price_ok (get (req_body req) "price") = true /\
  nonempty_text (get (req_body req) "category") = true.
Proof.
  unfold validateProduct. rewrite validation_result_None, validateProduct_errors_fields.
  intros H. repeat (apply app_eq_nil in H as [?%message_unless_nil H]).
  apply message_unless_nil in H. by repeat split.
Qed.

Lemma nonempty_text_inv (v : JsValue) :
  nonempty_text v = true -> exists s, v = JStr s /\ trim s <> "".
Proof.
  destruct v as [| | | |s]; simpl; try discriminate.
  intros H. exists s. split; [reflexivity|]. intros E. by rewrite E in H.
Qed.

(** X9. A body that passes [validateProduct] also passes
    [validateProductUpdate], provided its [inStock] is absent or a boolean
    (the one test the update validator has and the create validator lacks). *)
Theorem create_valid_is_update_valid (req : Request) :
  validateProduct req = None ->
  get (req_body req) "inStock" = JUndefined \/
    (exists b, get (req_body req) "inStock" = JBool b) ->
  validateProductUpdate req = None.
Proof.
  intros (Hn & Hd & Hp & Hc)%validateProduct_passed Hstock.
  unfold validateProductUpdate.
  rewrite validation_result_None, validateProductUpdate_errors_fields.
  rewrite Hn, Hd, Hp, Hc, !orb_true_r. simpl.
  destruct Hstock as [-> | [b ->]]; reflexivity.
Qed.

Lemma create_valid_is_update_valid_witness :
  validateProductUpdate mug_create = None.
Proof.
  apply create_valid_is_update_valid; [reflexivity | by left].
Defined.

(** ** routes/products.js: what the routes store *)

(** The product [create_product] builds, field by field. *)
Lemma create_product_fields (uuid : string) (req : Request) (ps : list Product) :
  exists p : Product,
    (create_product uuid req ps).2 = (ps ++ [p])%list /\
    get p "id" = JStr uuid /\
    get p "name" = get (req_body req) "name" /\
    get p "description" = get (req_body req) "description" /\
    get p "price" = JNum (parseFloat (get (req_body req) "price")) /\
    get p "category" = get (req_body req) "category" /\
    get p "inStock" = JBool (truthy (get (req_body req) "inStock")).
Proof. eexists. split; [reflexivity|]. repeat split. Qed.

(** X10. The product an accepted create request stores has non-empty
    strings (white space set aside) for name, description and category, a
    boolean for [inStock], and for price a number that is not zero or below:
    the number submitted where the body holds a JSON number, which is then
    positive. *)
Theorem created_product_shape (uuid : string) (req : Request) (ps : list Product) :
  validateProduct req = None ->
  exists (p : Product) (name description category : string) (inStock : bool) (price : number),
    (create_product uuid req ps).2 = (ps ++ [p])%list /\
    get p "name" = JStr name /\ trim name <> "" /\
    get p "description" = JStr description /\ trim description <> "" /\
    get p "category" = JStr category /\ trim category <> "" /\
    get p "inStock" = JBool inStock /\
    get p "price" = JNum price /\ le_zero price = false /\
    (forall x, get (req_body req) "price" = JNum x ->
       price = x /\ positive_number x = true) /\
    typed p = true.
Proof.
  intros (Hn & Hd & Hp & Hc)%validateProduct_passed.
  destruct (nonempty_text_inv _ Hn) as (name & En & Hname).
  destruct (nonempty_text_inv _ Hd) as (description & Ed & Hdesc).
  destruct (nonempty_text_inv _ Hc) as (category & Ec & Hcat).
  destruct (create_product_fields uuid req ps)
    as (p & Hstore & _ & Fn & Fd & Fp & Fc & Fs).
  exists p, name, description, category, (truthy (get (req_body req) "inStock")),
    (parseFloat (get (req_body req) "price")).
  split; [exact Hstore|].
  split; [congruence|]. split; [assumption|].
  split; [congruence|]. split; [assumption|].
  split; [congruence|]. split; [assumption|].
  split; [assumption|]. split; [assumption|].
  split.
  { unfold create_price_ok in Hp. apply andb_true_iff in Hp as [_ Hp].
    by apply negb_true_iff. }
  split.
  - intros x Hx. rewrite Hx in *. split; [reflexivity|].
    by rewrite <- create_price_ok_number.
  - unfold typed, strings_at. simpl. by rewrite Fn, Fd, Fc, En, Ed, Ec.
Qed.

Lemma created_product_shape_witness :
  exists p : Product,
    (create_product sample_uuid mug_create products).2 = (products ++ [p])%list /\
    typed p = true.
Proof.
  destruct (created_product_shape sample_uuid mug_create products eq_refl)
    as (p & ? & ? & ? & ? & ? & Hstore & H).
  exists p. split; [exact Hstore|]. apply H.
Defined.

Lemma typed_strings (p : Product) :
  typed p = true <->
  is_string (get p "name") = true /\ is_string (get p "description") = true /\
  is_string (get p "category") = true.
Proof.
  unfold typed, strings_at. simpl. rewrite !andb_true_iff. tauto.
Qed.

(** A field of a patch that passed [validateProductUpdate] and is truthy is
    a string. *)
Lemma update_field_string (v : JsValue) :
  message_unless (negb (truthy v) || nonempty_text v) "" = [] -> truthy v = true ->
  is_string v = true.
Proof.
  rewrite message_unless_nil. intros H Ht. rewrite Ht in H. simpl in H.
  by destruct v.
Qed.

Lemma merge_get (old patch : JsObject) (id k : string) :
  k <> "id" ->
  get (merge old patch id) k = match patch !! k with
                               | Some v => v
                               | None => get old k
                               end.
Proof.
  intros Hk. unfold get. destruct (patch !! k) as [v|] eqn:Hv.
  - by rewrite (merge_lookup_patch old patch id k v Hk Hv).
  - by rewrite (merge_lookup_old old patch id k Hk Hv).
Qed.

(** X11. Typing is kept by every request but some updates.  Let the
    products of the collection have strings for name, description and
    category.  After any request that is not handed to the update route they
    still have; and after an update too, when its patch holds no falsy value
    for one of the three (a falsy value, such as [null], is not put to the
    test and is stored). *)
Theorem typing_preserved (env : Env) (uuid : string) (req : Request) (ps : list Product) :
  Forall (fun p => typed p = true) ps ->
  dispatch req <> Some UpdateRoute \/
    (forall k v, k ∈ ["name"; "description"; "category"] ->
       req_body req !! k = Some v -> truthy v = true) ->
  Forall (fun p => typed p = true) (app env uuid req ps).2.
Proof.
  intros Hps Hreq. rewrite app_store.
  destruct (dispatch req) as [r|]; [|exact Hps].
  destruct r; try exact Hps; unfold run_route.
  - simpl. destruct (authenticate env req); [exact Hps|].
    destruct (validateProduct req) eqn:Hvalid; [exact Hps|].
    destruct (create_product_fields uuid req ps) as (p & -> & _ & Fn & Fd & _ & Fc & _).
    apply Forall_app. split; [exact Hps|]. constructor; [|constructor].
    apply validateProduct_passed in Hvalid as (Hn & Hd & _ & Hc).
    apply nonempty_text_inv in Hn as (? & En & _).
    apply nonempty_text_inv in Hd as (? & Ed & _).
    apply nonempty_text_inv in Hc as (? & Ec & _).
    apply typed_strings. by rewrite Fn, Fd, Fc, En, Ed, Ec.
  - destruct Hreq as [Hreq | Hreq]; [done|].
    simpl. destruct (authenticate env req); [exact Hps|].
    destruct (validateProductUpdate req) eqn:Hvalid; [exact Hps|].
    unfold update_product.
    destruct (findIndex _ ps) as [i|] eqn:Hi; [|exact Hps].
    destruct (findIndex_Some _ _ _ Hi) as (old & Hold & _). rewrite Hold. simpl.
    apply Forall_insert; [exact Hps|].
    rewrite Forall_forall in Hps.
    pose proof (Hps old ltac:(by eapply list_elem_of_lookup_2)) as Hold_typed.
    apply typed_strings in Hold_typed as (On & Od & Oc).
    unfold validateProductUpdate in Hvalid.
    rewrite validation_result_None, validateProductUpdate_errors_fields in Hvalid.
    apply app_eq_nil in Hvalid as [Vn Hvalid].
    apply app_eq_nil in Hvalid as [Vd Hvalid].
    apply app_eq_nil in Hvalid as [_ Hvalid].
    apply app_eq_nil in Hvalid as [Vc _].
    apply typed_strings. rewrite !merge_get by discriminate.
    assert (Hfield : forall k msg,
      k ∈ ["name"; "description"; "category"] ->
      message_unless (negb (truthy (get (req_body req) k)) || nonempty_text (get (req_body req) k))
        msg = [] ->
      is_string (get old k) = true ->
      is_string match req_body req !! k with
                | Some v => v
                | None => get old k
                end = true).
    { intros k msg Hk Hmsg Hok. destruct (req_body req !! k) as [v|] eqn:Hv; [|exact Hok].
      pose proof (Hreq k v Hk Hv) as Ht. unfold get in Hmsg. rewrite Hv in Hmsg. simpl in Hmsg.
      apply (update_field_string v); [|exact Ht].
      apply message_unless_nil. by apply message_unless_nil in Hmsg. }
    repeat split; eapply Hfield; eauto; set_solver.
  - simpl. destruct (authenticate env req); [exact Hps|].
    unfold delete_product. destruct (findIndex _ ps) as [i|]; [|exact Hps].
    simpl. by apply Forall_delete.
Qed.

Lemma typing_preserved_witness :
  Forall (fun p => typed p = true) (app (mkEnv None) "" delete_second products).2.
Proof.
  apply typing_preserved.
  - repeat constructor.
  - left. discriminate.
Defined.

(** ** routes/products.js: when the queries fail *)

(** X12. When the search handler fails.  For a non-empty [q] the handler
    answers 200 with the matches exactly when its callback throws on no
    product: every name is a string, and so is the description of every
    product whose name does not contain the query (a description is not read
    when the name matches).  Otherwise a [TypeError] goes to the error
    handler, which answers it with status 500. *)
Theorem search_products_fails (req : Request) (ps : list Product) (q : string) :
  query req !! "q" = Some (QString q) -> q <> "" ->
  (Forall (fun p => search_throws q p = false) ps ->
     search_products req ps =
       Sent {| status := 200;
               body := BSearch (toLowerCase q) (length (List.filter (search_hit q) ps))
                         (List.filter (search_hit q) ps) |}) /\
  (Exists (fun p => search_throws q p = true) ps ->
     exists msg,
       search_products req ps = Next (TypeError msg) /\
       status (respond (Next (TypeError msg))) = 500).
Proof.
  intros Hq Hne. rewrite (search_products_nonempty req ps q Hq Hne). split.
  - intros Hok. rewrite (filterC_Normal _ (search_hit q)); [reflexivity|].
    eapply Forall_impl; [exact Hok|]. intros p Hp.
    destruct (search_matches_cases q p) as [[_ H] | [H _]]; [exact H | congruence].
  - intros Hbad.
    destruct (filterC (search_matches (toLowerCase q)) ps) as [r|e] eqn:E.
    + exfalso. assert (Hthrow : exists e, filterC (search_matches (toLowerCase q)) ps = Throw e).
      { apply filterC_Throw. eapply Exists_impl; [exact Hbad|]. intros p Hp.
        destruct (search_matches_cases q p) as [[H _] | [_ [msg H]]]; [congruence | eauto]. }
      destruct Hthrow as [e He]. congruence.
    + apply filterC_Throw_from in E. apply Exists_exists in E as (p & _ & Hp).
      destruct (search_matches_cases q p) as [[_ H] | [_ [msg H]]]; [congruence|].
      exists msg. split; [congruence|]. unfold respond, errorHandler. simpl.
      by destruct (String.eqb msg "").
Qed.

Lemma search_products_fails_witness :
  search_products mug_search products =
    Sent {| status := 200;
            body := BSearch "mug" (length (List.filter (search_hit "MUG") products))
                      (List.filter (search_hit "MUG") products) |}.
Proof.
  apply (proj1 (search_products_fails mug_search products "MUG" eq_refl ltac:(discriminate))).
  repeat constructor.
Defined.


(** ** routes/products.js: the pages of a list *)





(** ** server.js: requests that match no route *)

(** X15. A request below the mount point with two segments or more, a
    [POST] with a segment, and a [PUT] or [DELETE] with none match no route
    of the router: the catch-all handler answers 404 "Route not found",
    naming the URL, and the collection stays as it is. *)
Theorem unrouted_requests (env : Env) (uuid : string) (req : Request) (ps : list Product) :
  (2 <= length (path req))%nat \/
  (method req = "POST" /\ path req <> []) \/
  ((method req = "PUT" \/ method req = "DELETE") /\ path req = []) ->
  dispatch req = None /\
  app env uuid req ps =
    ({| status := 404;
        body := BErrorMessage "Route not found"
                  ("The route " ++ originalUrl req ++ " does not exist") |}, ps).
Proof.
  intros Hreq.
  assert (Hd : dispatch req = None).
  { unfold dispatch, stack, route_matches. simpl.
    destruct Hreq as [Hlen | [[Hm Hp] | [[Hm | Hm] Hp]]].
    - destruct (path req) as [|s [|t rest]]; simpl in *; try lia.
      by rewrite !andb_false_r.
    - rewrite Hm. destruct (path req) as [|s rest]; [done|]. simpl.
      by rewrite ?andb_false_r.
    - by rewrite Hm, Hp.
    - by rewrite Hm, Hp. }
  split; [exact Hd|]. unfold app, router, logger. by rewrite Hd.
Qed.

Lemma unrouted_requests_witness :
  dispatch post_with_id = None /\ dispatch put_root = None.
Proof.
  split.
  - apply (unrouted_requests (mkEnv None) "" post_with_id products).
    right. left. split; [reflexivity | discriminate].
  - apply (unrouted_requests (mkEnv None) "" put_root products).
    right. right. split; [by left | reflexivity].
Defined.

(** ** routes/products.js: the letter case of a search *)

(** X16. A search does not see the letter case of its query: two requests
    whose [q] differ in letter case only get the same answer. *)
Theorem search_ignores_query_case (req req' : Request) (ps : list Product) (q q' : string) :
  query req !! "q" = Some (QString q) ->
  query req' !! "q" = Some (QString q') ->
  toLowerCase q = toLowerCase q' ->
  search_products req ps = search_products req' ps.
Proof.
  intros Hq Hq' Hcase. unfold search_products. rewrite Hq, Hq'. simpl.
  by rewrite Hcase.
Qed.

Lemma search_ignores_query_case_witness :
  search_products mug_search products = search_products upper_search products.
Proof.
  by apply (search_ignores_query_case mug_search upper_search products "MUG" "Mug").
Defined.

(** ** routes/products.js: GET /:id *)

(** X17. [GET /:id] answers 200 with a product of the collection that
    bears the id, the first one, when there is one, and raises "Product not
    found" with status 404 when there is none. *)
Theorem get_product_finds (id : string) (ps : list Product) :
  (JStr id ∈ ids ps ->
     exists (i : nat) (p : Product),
       get_product id ps = Sent {| status := 200; body := BProduct p |} /\
       ps !! i = Some p /\
       get p "id" = JStr id /\
       (forall j p', (j < i)%nat -> ps !! j = Some p' -> get p' "id" <> JStr id)) /\
  (JStr id ∉ ids ps ->
     get_product id ps = Next not_found /\
     respond (Next not_found) = {| status := 404; body := BError "Product not found" None |}).
Proof.
  unfold get_product. rewrite find_findIndex.
  destruct (findIndex_id id ps) as [Hsome Hnone]. split; intros Hin.
  - destruct (Hsome Hin) as [i Hi].
    destruct (findIndex_Some _ _ _ Hi) as (p & Hp & Hid & Hbefore).
    apply strict_eq_string_spec in Hid. exists i, p. rewrite Hi. simpl. rewrite Hp.
    repeat split; try assumption.
    intros j p' Hj Hp' Heq. apply strict_eq_string_spec in Heq.
    specialize (Hbefore j p' Hj Hp'). simpl in Hbefore. congruence.
  - rewrite (Hnone Hin). split; reflexivity.
Qed.

Lemma get_product_finds_witness :
  exists p : Product,
    get_product "3" products = Sent {| status := 200; body := BProduct p |} /\
    get p "id" = JStr "3".
Proof.
  destruct (proj1 (get_product_finds "3" products)) as (i & p & Hrun & _ & Hid & _).
  - unfold ids, products. simpl. right. right. left.
  - exists p. split; [exact Hrun | exact Hid].
Defined.

(** ** middleware/validation.js: [validateProductUpdate] as it is *)



(** ** The application: what a request can change *)

Lemma dispatch_read (req : Request) (r : Route) :
  method req = "GET" \/ method req = "HEAD" ->
  dispatch req = Some r -> write_route r = false.
Proof.
  intros Hm. unfold dispatch, stack, route_matches. simpl.
  destruct Hm as [-> | ->]; simpl;
    repeat (match goal with
            | |- context [if ?c then _ else _] => destruct c
            end; [by intros [= <-]|]); discriminate.
Qed.

(** X19. A [GET] or a [HEAD] request never changes the collection. *)
Theorem get_requests_read_only (env : Env) (uuid : string) (req : Request)
    (ps : list Product) :
  method req = "GET" \/ method req = "HEAD" ->
  (app env uuid req ps).2 = ps.
Proof.
  intros Hm. rewrite app_store.
  destruct (dispatch req) as [r|] eqn:Hr; [|reflexivity].
  pose proof (dispatch_read req r Hm Hr) as Hw.
  by destruct r; try discriminate.
Qed.

Lemma get_requests_read_only_witness :
  (app (mkEnv None) "" head_first products).2 = products.
Proof. apply get_requests_read_only. by right. Defined.

(** X20. A request that is not answered 200 or 201 leaves the collection as
    it is: nothing is stored, changed or removed by a request that fails. *)
Theorem failed_requests_change_nothing (env : Env) (uuid : string) (req : Request)
    (ps : list Product) :
  status (app env uuid req ps).1 <> 200 ->
  status (app env uuid req ps).1 <> 201 ->
  (app env uuid req ps).2 = ps.
Proof.
  unfold app, router, logger. destruct (dispatch req) as [r|]; [|reflexivity].
  simpl. destruct r; simpl; try reflexivity.
  - destruct (authenticate env req); [reflexivity|].
    destruct (validateProduct req); [reflexivity|]. simpl. by intros _ H.
  - destruct (authenticate env req); [reflexivity|].
    destruct (validateProductUpdate req); [reflexivity|].
    unfold update_product. destruct (findIndex _ ps); [|reflexivity]. simpl. by intros H.
  - destruct (authenticate env req); [reflexivity|].
    unfold delete_product. destruct (findIndex _ ps); [|reflexivity]. simpl. by intros H.
Qed.

Lemma failed_requests_change_nothing_witness :
  (app (mkEnv None) "" negative_price_update products).2 = products.
Proof.
  apply failed_requests_change_nothing; vm_compute; discriminate.
Defined.
